(** * Rotation resolver and message formatter of the padel reminder bot

    A shallow embedding of [src/rotation.py]: the week-string helpers
    ([get_week_number], [get_total_weeks_since_epoch]), the vacation
    coverage rule ([get_vacation_coverage]), the resolver
    ([get_responsible_person]) and the formatter ([format_message]),
    together with the parts of the Python runtime they call
    ([str.split], [int], [str.format], list indexing, floored [%]); then
    the environment readers of [src/config.py] and the dispatcher of
    [src/bot.py] ([send_message], [main] and the script around it), with
    the environment, the loaded files, the clock and the messaging API as
    explicit arguments.

    Conventions of the model.
    - A Python [str] is a Rocq [string]; each character stands for the
      code point of the same number (0 to 255).
    - A Python [int] is a [Z].
    - A raised exception is the [Raise] case of [result], carrying the
      exception class.
    - The schedule dataset has the shape of the data model: the five keys
      are bound, [default_rotation] to a list of names, [start_week] to a
      string, [schedule_overrides] and [special_messages] to string-keyed
      dictionaries, [vacation_weeks] to a dictionary from names to lists
      of week strings, kept as a list of pairs in iteration order. *)

From Stdlib Require Import ZArith String Ascii List Lia.
From stdpp Require Import base option list gmap strings pretty.

Local Open Scope string_scope.
Local Open Scope list_scope.
Local Open Scope Z_scope.

(** ** Exceptions and results *)

Inductive exn : Type :=
  | ValueError
  | KeyError
  | IndexError
  | ZeroDivisionError.

Inductive result (A : Type) : Type :=
  | Ok (a : A)
  | Raise (e : exn).

Arguments Ok {A} a.
Arguments Raise {A} e.

Global Instance result_ret : MRet result := @Ok.
Global Instance result_bind : MBind result := λ A B f m,
  match m with
  | Ok a => f a
  | Raise e => Raise e
  end.
Global Instance result_fmap : FMap result := λ A B f m,
  match m with
  | Ok a => Ok (f a)
  | Raise e => Raise e
  end.

Global Instance exn_eq_dec : EqDecision exn.
Proof. solve_decision. Defined.

Global Instance result_eq_dec {A} `{EqDecision A} : EqDecision (result A).
Proof. solve_decision. Defined.

Definition raises {A} (m : result A) : Prop := ∃ e, m = Raise e.

Definition returns {A} (m : result A) : Prop := ∃ a, m = Ok a.

(** ** Runtime: characters *)

Module Py.

Definition ord (c : ascii) : Z := Z.of_N (N_of_ascii c).

(** Whitespace skipped by [int] around the literal: the C locale's blank
    characters, and U+0085 and U+00A0, which the conversion turns into a
    blank first. *)
Definition isspace (c : ascii) : bool :=
  let n := ord c in
  ((9 <=? n) && (n <=? 13)) || (n =? 32) || (n =? 133) || (n =? 160).

Definition isdigit (c : ascii) : bool :=
  let n := ord c in (48 <=? n) && (n <=? 57).

Definition digit_value (c : ascii) : Z := ord c - 48.

(** Truth value of a string: the empty string is false. *)
Definition truthy (s : string) : bool :=
  match s with
  | EmptyString => false
  | String _ _ => true
  end.

(** ** Runtime: [int(s)] for a string, base 10 *)

Fixpoint skip_spaces (s : string) : string :=
  match s with
  | String c s' => if isspace c then skip_spaces s' else s
  | EmptyString => s
  end.

(** The digit scan: digits and single underscores between them. Returns
    the value, the number of digits and the unread rest, or [None] on a
    doubled or trailing underscore. *)
Fixpoint scan_digits (s : string) (prev_underscore : bool) (acc : Z) (digits : nat)
  : option (Z * nat * string) :=
  match s with
  | String c s' =>
      if isdigit c then scan_digits s' false (acc * 10 + digit_value c) (S digits)
      else if Ascii.eqb c "_" then
        if prev_underscore then None else scan_digits s' true acc digits
      else if prev_underscore then None else Some (acc, digits, s)
  | EmptyString => if prev_underscore then None else Some (acc, digits, s)
  end.

(** Default of [sys.get_int_max_str_digits()]. *)
Definition int_max_str_digits : nat := 4300.

Definition read_sign (s : string) : Z * string :=
  match s with
  | String c s' =>
      if Ascii.eqb c "+" then (1, s')
      else if Ascii.eqb c "-" then (-1, s')
      else (1, s)
  | EmptyString => (1, s)
  end.

Definition starts_with_underscore (s : string) : bool :=
  match s with
  | String c _ => Ascii.eqb c "_"
  | EmptyString => false
  end.

(** Blanks, an optional sign, the digits, blanks, and nothing more. A
    literal of more than [int_max_str_digits] digits is refused. *)
Definition int (s : string) : result Z :=
  let '(sign, body) := read_sign (skip_spaces s) in
  if starts_with_underscore body then Raise ValueError
  else
    match scan_digits body false 0 0%nat with
    | None => Raise ValueError
    | Some (v, digits, rest) =>
        if (digits =? 0)%nat then Raise ValueError
        else if (int_max_str_digits <? digits)%nat then Raise ValueError
        else
          match skip_spaces rest with
          | EmptyString => Ok (sign * v)
          | String _ _ => Raise ValueError
          end
    end.

(** ** Runtime: [s.split("-W")] *)

(** Left to right, each occurrence of the separator closes the current
    piece; [cur] is the piece read so far. *)
Fixpoint split_dash_w_from (cur s : string) : list string :=
  match s with
  | String "-" (String "W" rest) => cur :: split_dash_w_from "" rest
  | String c s' => split_dash_w_from (cur +:+ String c "") s'
  | EmptyString => [cur]
  end.

Definition split_dash_w (s : string) : list string := split_dash_w_from "" s.

(** ** Runtime: floored [a % b] and [l[i]] *)

Definition mod_ (a b : Z) : result Z :=
  if b =? 0 then Raise ZeroDivisionError else Ok (a mod b).

Definition getitem {A} (l : list A) (i : Z) : result A :=
  let j := if i <? 0 then i + Z.of_nat (length l) else i in
  if j <? 0 then Raise IndexError
  else match l !! Z.to_nat j with
       | Some x => Ok x
       | None => Raise IndexError
       end.

(** [l.index(x)]: position of the first occurrence. *)
Fixpoint index (x : string) (l : list string) : result nat :=
  match l with
  | [] => Raise ValueError
  | y :: l' => if bool_decide (y = x) then Ok 0%nat else S <$> index x l'
  end.

End Py.

(** ** Week strings *)

(** [int(week_string.split("-W")[1])] *)
Definition get_week_number (week_string : string) : result Z :=
  match Py.split_dash_w week_string with
  | _ :: w :: _ => Py.int w
  | _ => Raise IndexError
  end.

Definition get_total_weeks_since_epoch (week_string : string) : result Z :=
  match Py.split_dash_w week_string with
  | [year_str; week_str] =>
      year_int ← Py.int year_str;
      week_int ← Py.int week_str;
      Ok ((year_int - 2000) * 52 + week_int)
  | _ => Raise ValueError
  end.

(** ** The schedule dataset *)

Record schedule : Type := {
  default_rotation : list string;
  start_week : string;
  schedule_overrides : gmap string string;
  vacation_weeks : list (string * list string);
  special_messages : gmap string string
}.

(** ** Vacation coverage *)

Definition get_vacation_coverage
    (person week_string : string) (schedule_data : schedule) : result (option string) :=
  let rotation := default_rotation schedule_data in
  if bool_decide (person ∉ rotation) then Ok None
  else
    person_index ← Py.index person rotation;
    next_index ← Py.mod_ (Z.of_nat person_index + 1) (Z.of_nat (length rotation));
    Some <$> Py.getitem rotation next_index.

(** ** The resolver *)

(** The loop over [vacation_weeks.items()]: [Ok (Some c)] when the loop
    returns the coverage [c], [Ok None] when it runs to its end. *)
Fixpoint vacation_loop
    (items : list (string * list string))
    (week_string : string) (schedule_data : schedule) : result (option string) :=
  match items with
  | [] => Ok None
  | (person, weeks) :: items' =>
      if bool_decide (week_string ∈ weeks) then
        coverage ← get_vacation_coverage person week_string schedule_data;
        match coverage with
        | Some c =>
            if Py.truthy c then Ok (Some c)
            else vacation_loop items' week_string schedule_data
        | None => vacation_loop items' week_string schedule_data
        end
      else vacation_loop items' week_string schedule_data
  end.

Definition rotation_branch
    (week_string : string) (schedule_data : schedule) : result string :=
  total_weeks ← get_total_weeks_since_epoch week_string;
  start_total_weeks ← get_total_weeks_since_epoch (start_week schedule_data);
  let weeks_since_start := total_weeks - start_total_weeks in
  let rotation := default_rotation schedule_data in
  rotation_index ← Py.mod_ weeks_since_start (Z.of_nat (length rotation));
  Py.getitem rotation rotation_index.

Definition get_responsible_person
    (week_string : string) (schedule_data : schedule)
  : result (string * option string) :=
  let special_message := special_messages schedule_data !! week_string in
  covered ← vacation_loop (vacation_weeks schedule_data) week_string schedule_data;
  match covered with
  | Some coverage => Ok (coverage, special_message)
  | None =>
      match schedule_overrides schedule_data !! week_string with
      | Some person => Ok (person, special_message)
      | None =>
          person ← rotation_branch week_string schedule_data;
          Ok (person, special_message)
      end
  end.

(** ** The repository's test fixtures

    The schedules of [tests/test_rotation.py]. The holiday template is kept
    without its leading emoji, which lies outside the characters of the
    model. *)

Module Fixtures.

Definition six : list string :=
  ["Esteban"; "Chema"; "Adrian"; "Chito"; "Vanish"; "JC"].

Definition basic_schedule : schedule := {|
  default_rotation := six;
  start_week := "2025-W31";
  schedule_overrides := ∅;
  vacation_weeks := [];
  special_messages := ∅
|}.

Definition schedule_with_overrides : schedule := {|
  default_rotation := six;
  start_week := "2025-W31";
  schedule_overrides := {[ "2025-W32" := "Adrian"; "2025-W35" := "Esteban" ]};
  vacation_weeks := [("Chito", ["2025-W34"]); ("Adrian", ["2025-W40"; "2025-W41"])];
  special_messages := {[ "2025-W52" := "Holiday week: {name} is responsible!" ]}
|}.

Definition rotation_only (rotation : list string) (start : string) : schedule := {|
  default_rotation := rotation;
  start_week := start;
  schedule_overrides := ∅;
  vacation_weeks := [];
  special_messages := ∅
|}.

End Fixtures.

(** ** Runtime: [str.format] with the keyword arguments [name] and [week]

    The format string is read left to right by a scanner that yields
    literal characters and replacement fields; each field is rendered when
    it is reached, so the first failure met, in reading order, is the one
    raised. *)

Module Format.

Inductive token : Type :=
  | Literal (c : ascii)
  | Field (field_name : string) (conversion : option ascii) (format_spec : string)
  | Malformed.

Global Instance token_eq_dec : EqDecision token.
Proof. solve_decision. Defined.

Inductive scan_state : Type :=
  | InText
  | InName (field_name : string)
  | InIndex (field_name : string)
  | InConversion (field_name : string)
  | AfterConversion (field_name : string) (conversion : ascii)
  | InSpec (field_name : string) (conversion : option ascii) (spec : string) (depth : nat).

Definition snoc (s : string) (c : ascii) : string := s +:+ String c "".

(** The scanner. In text, a doubled brace is one literal brace, a lone
    closing brace or a final opening brace is an error. In a field name, a
    bracketed index is skipped whole; the name ends at [}], [:] or [!].
    A format spec ends at the closing brace that matches the field's
    opening one. Running out of input inside a field is an error. *)
Fixpoint markup (st : scan_state) (s : string) : list token :=
  match s with
  | EmptyString =>
      match st with
      | InText => []
      | _ => [Malformed]
      end
  | String c s' =>
      match st with
      | InText =>
          if Ascii.eqb c "{" then
            match s' with
            | EmptyString => [Malformed]
            | String d rest =>
                if Ascii.eqb d "{" then Literal "{" :: markup InText rest
                else markup (InName "") s'
            end
          else if Ascii.eqb c "}" then
            match s' with
            | EmptyString => [Malformed]
            | String d rest =>
                if Ascii.eqb d "}" then Literal "}" :: markup InText rest
                else [Malformed]
            end
          else Literal c :: markup InText s'
      | InName n =>
          if Ascii.eqb c "{" then [Malformed]
          else if Ascii.eqb c "[" then markup (InIndex (snoc n c)) s'
          else if Ascii.eqb c "}" then Field n None "" :: markup InText s'
          else if Ascii.eqb c ":" then markup (InSpec n None "" 1) s'
          else if Ascii.eqb c "!" then markup (InConversion n) s'
          else markup (InName (snoc n c)) s'
      | InIndex n =>
          if Ascii.eqb c "]" then markup (InName (snoc n c)) s'
          else markup (InIndex (snoc n c)) s'
      | InConversion n => markup (AfterConversion n c) s'
      | AfterConversion n cv =>
          if Ascii.eqb c "}" then Field n (Some cv) "" :: markup InText s'
          else if Ascii.eqb c ":" then markup (InSpec n (Some cv) "" 1) s'
          else [Malformed]
      | InSpec n cv spec depth =>
          if Ascii.eqb c "{" then markup (InSpec n cv (snoc spec c) (S depth)) s'
          else if Ascii.eqb c "}" then
            match depth with
            | 1%nat => Field n cv spec :: markup InText s'
            | _ => markup (InSpec n cv (snoc spec c) (pred depth)) s'
            end
          else markup (InSpec n cv (snoc spec c) depth) s'
      end
  end.

(** The two keyword arguments [format_message] passes. *)
Inductive value : Type :=
  | VStr (s : string)
  | VInt (n : Z).

(** [str(v)], which is also [format(v, "")]. *)
Definition str (v : value) : string :=
  match v with
  | VStr s => s
  | VInt n => pretty n
  end.

(** The argument name is the part of the field name before the first [.]
    or [[]; the rest is the attribute and index path. *)
Fixpoint split_field_name (s : string) : string * string :=
  match s with
  | EmptyString => ("", "")
  | String c s' =>
      if Ascii.eqb c "." || Ascii.eqb c "[" then ("", s)
      else let '(first, path) := split_field_name s' in (String c first, path)
  end.

Definition arg_name (field_name : string) : string := fst (split_field_name field_name).

Fixpoint all_digits (s : string) : bool :=
  match s with
  | EmptyString => true
  | String c s' => Py.isdigit c && all_digits s'
  end.

Fixpoint decimal_value (acc : Z) (s : string) : Z :=
  match s with
  | EmptyString => acc
  | String c s' => decimal_value (acc * 10 + Py.digit_value c) s'
  end.

(** Largest positional index the scanner accepts (64-bit build). *)
Definition ssize_max : Z := 2 ^ 63 - 1.

(** Looking up the argument of a field in [format(name=..., week=...)].
    No positional argument is passed, so an empty or numeric argument name
    fails; any keyword other than the two fails with [KeyError]. *)
Definition get_argument (first name : string) (week : Z) : result value :=
  match first with
  | EmptyString => Raise IndexError
  | _ =>
      if all_digits first then
        if ssize_max <? decimal_value 0 first then Raise ValueError
        else Raise IndexError
      else if String.eqb first "name" then Ok (VStr name)
      else if String.eqb first "week" then Ok (VInt week)
      else Raise KeyError
  end.

Fixpoint needs_expanding (spec : string) : bool :=
  match spec with
  | EmptyString => false
  | String c s' => Ascii.eqb c "{" || needs_expanding s'
  end.

(** What the runtime does with a field beyond plain substitution is kept
    abstract: the objects reached from an argument, attribute and index
    access, the [!r], [!s], [!a] conversions, and formatting under a
    non-empty format spec. *)
Class Runtime : Type := {
  obj : Type;
  of_value : value → obj;
  getpath : value → string → result obj;
  convert : obj → ascii → result obj;
  format_obj : obj → string → result string
}.

Section Render.

Context `{Runtime}.

Variable name : string.
Variable week : Z.

(** One replacement field: argument lookup, path, conversion, expansion
    of a format spec that holds fields of its own, formatting. *)
Definition render_field
    (expand : string → result string)
    (field_name : string) (conversion : option ascii) (format_spec : string)
  : result string :=
  let '(first, path) := split_field_name field_name in
  v ← get_argument first name week;
  o ← (match path return result obj with
       | EmptyString => Ok (of_value v)
       | _ => getpath v path
       end);
  o ← (match conversion return result obj with
       | None => Ok o
       | Some c => convert o c
       end);
  spec ← (if needs_expanding format_spec then expand format_spec else Ok format_spec);
  match path, conversion, spec with
  | EmptyString, None, EmptyString => Ok (str v)
  | _, _, _ => format_obj o spec
  end.

Fixpoint render_tokens (expand : string → result string) (ts : list token)
  : result string :=
  match ts with
  | [] => Ok ""
  | Literal c :: ts' => String c <$> render_tokens expand ts'
  | Field n cv spec :: ts' =>
      piece ← render_field expand n cv spec;
      rest ← render_tokens expand ts';
      Ok (piece +:+ rest)
  | Malformed :: _ => Raise ValueError
  end.

(** [recursion_depth] bounds the nesting of fields inside format specs;
    at depth zero the runtime raises. *)
Fixpoint build_string (recursion_depth : nat) (s : string) : result string :=
  match recursion_depth with
  | O => Raise ValueError
  | S d => render_tokens (build_string d) (markup InText s)
  end.

(** [s.format(name=name, week=week)] *)
Definition format (s : string) : result string := build_string 2 s.

End Render.

End Format.

(** ** The formatter *)

Section FormatMessage.

Context `{Format.Runtime}.

Definition str_format (s name : string) (week : Z) : result string :=
  Format.format name week s.

Definition format_message
    (template name week_string : string) (special_message : option string)
  : result string :=
  week_number ← get_week_number week_string;
  match special_message with
  | Some special =>
      if Py.truthy special then str_format special name week_number
      else str_format template name week_number
  | None => str_format template name week_number
  end.

End FormatMessage.

Module Plain.
(** A runtime under which every field beyond plain substitution fails;
    enough to run the formatter on the repository's templates. *)
Definition runtime : Format.Runtime := {|
  Format.obj := unit;
  Format.of_value := λ _, tt;
  Format.getpath := λ _ _, Raise ValueError;
  Format.convert := λ _ _, Raise ValueError;
  Format.format_obj := λ _ _, Raise ValueError
|}.
Definition str_format := @str_format runtime.
Definition format_message := @format_message runtime.
End Plain.

(** ** Vocabulary of the properties *)

(** [person] has [week_string] in their vacation set. *)
Definition on_vacation (week_string : string) (s : schedule) (person : string) : Prop :=
  ∃ weeks, (person, weeks) ∈ vacation_weeks s ∧ week_string ∈ weeks.

(** No entry of [vacation_weeks] has [week_string] in its set. *)
Definition no_vacation_match (week_string : string) (s : schedule) : Prop :=
  Forall (λ entry : string * list string, week_string ∉ entry.2) (vacation_weeks s).

(** The entry of [vacation_weeks] makes the loop return [c]: the week is in
    its set and the coverage found for its person is a non-empty name. *)
Definition yields (week_string : string) (s : schedule)
    (entry : string * list string) (c : string) : Prop :=
  week_string ∈ entry.2 ∧
  get_vacation_coverage entry.1 week_string s = Ok (Some c) ∧
  c ≠ "".

(** The loop passes over the entry: the week is not in its set, or its
    person has no coverage, or the coverage is the empty name. *)
Definition skipped (week_string : string) (s : schedule)
    (entry : string * list string) : Prop :=
  week_string ∉ entry.2 ∨
  get_vacation_coverage entry.1 week_string s = Ok None ∨
  get_vacation_coverage entry.1 week_string s = Ok (Some "").

Definition no_coverage_in (items : list (string * list string))
    (week_string : string) (s : schedule) : Prop :=
  Forall (skipped week_string s) items.

Definition no_coverage (week_string : string) (s : schedule) : Prop :=
  no_coverage_in (vacation_weeks s) week_string s.

(** The linear week count of the rotation arithmetic. *)
Definition total_weeks (y w : Z) : Z := (y - 2000) * 52 + w.

(** The (year, week) pair a week string is read as. *)
Definition year_and_week (week_string : string) : result (Z * Z) :=
  match Py.split_dash_w week_string with
  | [year_str; week_str] =>
      y ← Py.int year_str;
      w ← Py.int week_str;
      Ok (y, w)
  | _ => Raise ValueError
  end.

(** The shape [YYYY-W##]: four digits, [-W], two digits. *)
Definition iso_shape (week_string : string) : bool :=
  match week_string with
  | String y1 (String y2 (String y3 (String y4
      (String d (String w (String w1 (String w2 EmptyString))))))) =>
      Py.isdigit y1 && Py.isdigit y2 && Py.isdigit y3 && Py.isdigit y4
      && Ascii.eqb d "-" && Ascii.eqb w "W"
      && Py.isdigit w1 && Py.isdigit w2
  | _ => false
  end.

(** [i] is the first position of [person] in [rotation]. *)
Definition first_occurrence (rotation : list string) (person : string) (i : nat) : Prop :=
  rotation !! i = Some person ∧ person ∉ take i rotation.

(** The schedule with another [vacation_weeks]. *)
Definition with_vacation_weeks (s : schedule) (items : list (string * list string))
  : schedule := {|
  default_rotation := default_rotation s;
  start_week := start_week s;
  schedule_overrides := schedule_overrides s;
  vacation_weeks := items;
  special_messages := special_messages s
|}.

(** The week string cannot be read: splitting it on the separator does not
    give exactly two pieces, or [int] rejects one of the two. *)
Definition unreadable (week_string : string) : Prop :=
  match Py.split_dash_w week_string with
  | [year_str; week_str] => raises (Py.int year_str) ∨ raises (Py.int week_str)
  | _ => True
  end.

(** ** The calendar of ISO weeks

    The week numbering that [isocalendar] follows and that the data model
    gives to week identifiers: a year has 52 weeks, or 53 when it ends on a
    Thursday or the year before it ends on a Wednesday. *)

Module Iso.

(** The weekday of the last day of the year, counted from Sunday as 0. *)
Definition last_weekday (year : Z) : Z :=
  (year + year `div` 4 - year `div` 100 + year `div` 400) `mod` 7.

Definition weeks_in_year (year : Z) : Z :=
  if (last_weekday year =? 4) || (last_weekday (year - 1) =? 3) then 53 else 52.

(** The week that follows the week [w] of [year]. *)
Definition next_week (yw : Z * Z) : Z * Z :=
  let '(year, w) := yw in
  if w <? weeks_in_year year then (year, w + 1) else (year + 1, 1).

(** The week that lies [n] weeks after. *)
Fixpoint weeks_after (n : nat) (yw : Z * Z) : Z * Z :=
  match n with
  | O => yw
  | S n' => weeks_after n' (next_week yw)
  end.

(** None of the [n] weeks from [yw] on is a week 53. *)
Fixpoint no_week_53 (n : nat) (yw : Z * Z) : bool :=
  match n with
  | O => true
  | S n' => (yw.2 <=? 52) && no_week_53 n' (next_week yw)
  end.

End Iso.

(** ** Templates made of text and the two placeholders *)

Module Template.

Inductive piece : Type :=
  | Text (s : string)
  | OpenBrace
  | CloseBrace
  | NameField
  | WeekField.

Fixpoint brace_free (s : string) : bool :=
  match s with
  | EmptyString => true
  | String c s' => negb (Ascii.eqb c "{") && negb (Ascii.eqb c "}") && brace_free s'
  end.

(** Text pieces hold no brace; a brace of the message is written doubled,
    as [OpenBrace] or [CloseBrace]. *)
Definition well_formed (ps : list piece) : bool :=
  forallb (λ p, match p with Text s => brace_free s | _ => true end) ps.

Definition source_of_piece (p : piece) : string :=
  match p with
  | Text s => s
  | OpenBrace => "{{"
  | CloseBrace => "}}"
  | NameField => "{name}"
  | WeekField => "{week}"
  end.

(** The template as written. *)
Fixpoint source (ps : list piece) : string :=
  match ps with
  | [] => ""
  | p :: ps' => source_of_piece p +:+ source ps'
  end.

Definition fill_piece (name : string) (week : Z) (p : piece) : string :=
  match p with
  | Text s => s
  | OpenBrace => "{"
  | CloseBrace => "}"
  | NameField => name
  | WeekField => pretty week
  end.

(** The template with the person in place of [{name}] and the week number,
    in decimal, in place of [{week}]. *)
Fixpoint filled (name : string) (week : Z) (ps : list piece) : string :=
  match ps with
  | [] => ""
  | p :: ps' => fill_piece name week p +:+ filled name week ps'
  end.

End Template.

(** The template [format_message] formats: the special message when it is
    given and not empty, the template argument otherwise. *)
Definition template_used (template : string) (special_message : option string) : string :=
  match special_message with
  | Some special => if Py.truthy special then special else template
  | None => template
  end.

(** The format string refers to the argument [a]: in one of its
    replacement fields, or in a field inside a format spec. *)
Inductive mentions : string → string → Prop :=
  | mentions_field (s n : string) (cv : option ascii) (spec : string) :
      Format.Field n cv spec ∈ Format.markup Format.InText s →
      mentions s (Format.arg_name n)
  | mentions_nested (s n : string) (cv : option ascii) (spec a : string) :
      Format.Field n cv spec ∈ Format.markup Format.InText s →
      mentions spec a →
      mentions s a.

(** ** Schedules used to exercise the properties *)

Module Scenarios.

(** Two rotation members away the same week, which also has an override. *)
Definition two_on_vacation : schedule := {|
  default_rotation := Fixtures.six;
  start_week := "2025-W31";
  schedule_overrides := {[ "2025-W34" := "Adrian" ]};
  vacation_weeks := [("Chito", ["2025-W34"]); ("Esteban", ["2025-W34"])];
  special_messages := ∅
|}.

(** The test schedule with one more override, on Chito's vacation week. *)
Definition vacation_and_override : schedule := {|
  default_rotation := Fixtures.six;
  start_week := "2025-W31";
  schedule_overrides :=
    {[ "2025-W32" := "Adrian"; "2025-W34" := "JC"; "2025-W35" := "Esteban" ]};
  vacation_weeks := [("Chito", ["2025-W34"]); ("Adrian", ["2025-W40"; "2025-W41"])];
  special_messages := {[ "2025-W52" := "Holiday week: {name} is responsible!" ]}
|}.


(** A rotation in which one name comes twice. *)
Definition repeated_name : schedule :=
  Fixtures.rotation_only ["A"; "B"; "A"] "2025-W01".

Definition four : schedule :=
  Fixtures.rotation_only ["A"; "B"; "C"; "D"] "2025-W01".

(** No rotation at all, and an override under a key that is no week. *)
Definition empty_rotation_override : schedule := {|
  default_rotation := [];
  start_week := "2025-W31";
  schedule_overrides := {[ "next week" := "Zed" ]};
  vacation_weeks := [];
  special_messages := ∅
|}.

(** Somebody outside the rotation listed in [vacation_weeks], ahead of a
    member away the same week. *)
Definition outsider_on_vacation : schedule := {|
  default_rotation := Fixtures.six;
  start_week := "2025-W31";
  schedule_overrides := ∅;
  vacation_weeks := [("Zed", ["2025-W34"]); ("Chito", ["2025-W34"])];
  special_messages := ∅
|}.

End Scenarios.

(** ** Week strings written by the code *)

(** [format(n, "02d")]: the decimal numeral, zero-padded after the sign to
    two characters at least. The integers that reach it come from [int] or
    from the calendar, below the limit of the integer-to-string conversion. *)
Definition format_02d (n : Z) : string :=
  if (0 <=? n) && (n <? 10) then String "0" (pretty n) else pretty n.

(** Integers of at most [int_max_str_digits] digits lie strictly between
    [- int_limit] and [int_limit]. *)
Definition int_limit : Z := 10 ^ Z.of_nat Py.int_max_str_digits.

(** [format(n, "02d")] as the runtime runs it: the integer-to-string
    conversion raises [ValueError] for an integer of more than
    [int_max_str_digits] digits. *)
Definition checked_format_02d (n : Z) : result string :=
  if Z.abs n <? int_limit then Ok (format_02d n) else Raise ValueError.

(** A decimal numeral: digits, or a minus sign and at least one digit. *)
Definition numeral (s : string) : Prop :=
  (Format.all_digits s = true ∧ s ≠ "") ∨
  ∃ body, s = String "-" body ∧ Format.all_digits body = true ∧ body ≠ "".

(** [f"{year}-W{week:02d}"] *)
Definition week_string (year week : Z) : string :=
  pretty year +:+ "-W" +:+ format_02d week.

(** [get_current_week_string]. The clock is an argument:
    [now_isocalendar timezone] is what
    [datetime.now(ZoneInfo(timezone)).isocalendar()] gives, or the exception
    the zone lookup raises. *)
Definition get_current_week_string
    (now_isocalendar : string → result (Z * Z * Z)) (timezone : string)
  : result string :=
  iso ← now_isocalendar timezone;
  Ok (week_string iso.1.1 iso.1.2).

(** [d[key]] on a dictionary. *)
Definition dict_getitem (d : gmap string string) (key : string) : result string :=
  match d !! key with
  | Some v => Ok v
  | None => Raise KeyError
  end.

(** The schedule with another [schedule_overrides]. *)
Definition with_overrides (s : schedule) (overrides : gmap string string)
  : schedule := {|
  default_rotation := default_rotation s;
  start_week := start_week s;
  schedule_overrides := overrides;
  vacation_weeks := vacation_weeks s;
  special_messages := special_messages s
|}.

(** ** Configuration from the environment ([src/config.py])

    [os.environ] is a dictionary from variable names to strings. *)

Module Config.

Definition get_bot_token (environ : gmap string string) : result string :=
  match environ !! "TELEGRAM_BOT_TOKEN" with
  | Some token => if Py.truthy token then Ok token else Raise ValueError
  | None => Raise ValueError
  end.

Definition get_chat_id (environ : gmap string string) : result string :=
  match environ !! "TELEGRAM_CHAT_ID" with
  | Some chat_id => if Py.truthy chat_id then Ok chat_id else Raise ValueError
  | None => Raise ValueError
  end.

Definition get_test_message (environ : gmap string string) : option string :=
  environ !! "TEST_MESSAGE".

(** The [try] catches [ValueError] only. *)
Definition get_force_week (environ : gmap string string) : result (option string) :=
  match environ !! "FORCE_WEEK" with
  | Some force_week =>
      if Py.truthy force_week then
        match Py.int force_week with
        | Ok week_num => Ok (Some ("2025-W" +:+ format_02d week_num))
        | Raise ValueError => Ok None
        | Raise e => Raise e
        end
      else Ok None
  | None => Ok None
  end.

End Config.

(** ** The dispatcher ([src/bot.py])

    The world around [main] is explicit: the environment, the two files as
    loaded (or [None] when a read raises), the clock, and the messaging
    API, whose one call either returns ([true]) or raises ([false]). The
    calls made to the API are returned beside the exit code; log lines are
    left out, and building the client from a non-empty token is taken to
    return. *)

Module Bot.

Record args : Type := {
  dry_run : bool;
  test_week : option Z;
  test : bool
}.

Record world : Type := {
  environ : gmap string string;
  files : option (gmap string string * schedule);
  now_isocalendar : string → result (Z * Z * Z);
  api_send : string → string → bool
}.

(** An API call: the chat id and the text. *)
Definition call : Type := (string * string)%type.

Definition send_message
    (api : string → string → bool) (chat_id message : string) (dry : bool)
  : bool * list call :=
  if dry then (true, [])
  else (api chat_id message, [(chat_id, message)]).

(** The [elif] and [else] of the week choice. *)
Definition forced_or_current_week (w : world) (config : gmap string string)
  : result string :=
  force_week ← Config.get_force_week (environ w);
  let current :=
    timezone ← dict_getitem config "timezone";
    get_current_week_string (now_isocalendar w) timezone in
  match force_week with
  | Some forced => if Py.truthy forced then Ok forced else current
  | None => current
  end.

(** The week [main] resolves: [--test-week] when given and not zero, else
    the forced week, else the current one. *)
Definition chosen_week (w : world) (a : args) (config : gmap string string)
  : result string :=
  match test_week a with
  | Some n =>
      if n =? 0 then forced_or_current_week w config
      else
        week ← checked_format_02d n;
        Ok ("2025-W" +:+ week)
  | None => forced_or_current_week w config
  end.

Section Main.

Context `{Format.Runtime}.

(** The body of the [try], once both files are loaded. *)
Definition main_loaded
    (w : world) (a : args) (config : gmap string string) (schedule_data : schedule)
  : result (Z * list call) :=
  credentials ← (if dry_run a return result (option string * string) then
                   Ok (None, "TEST_CHAT_ID")
                 else
                   bot_token ← Config.get_bot_token (environ w);
                   chat_id ← Config.get_chat_id (environ w);
                   Ok (Some bot_token, chat_id));
  week ← chosen_week w a config;
  resolved ← get_responsible_person week schedule_data;
  let formatted :=
    template ← dict_getitem config "message_template";
    format_message template resolved.1 week resolved.2 in
  message ← (match Config.get_test_message (environ w) with
             | Some test_message =>
                 if Py.truthy test_message then Ok test_message else formatted
             | None => formatted
             end);
  match credentials.1 with
  | Some _ =>
      let sent := send_message (api_send w) credentials.2 message (dry_run a) in
      Ok (if sent.1 then 0 else 1, sent.2)
  | None => Ok (0, [])
  end.

(** [main]: the exit code and the API calls made. Any exception gives 1. *)
Definition main (w : world) (a : args) : Z * list call :=
  match files w with
  | None => (1, [])
  | Some (config, schedule_data) =>
      match main_loaded w a config schedule_data with
      | Ok outcome => outcome
      | Raise _ => (1, [])
      end
  end.

(** The script: [--test] turns [dry_run] on, then [main] runs. *)
Definition run (w : world) (a : args) : Z * list call :=
  main w (if test a
          then {| dry_run := true; test_week := test_week a; test := test a |}
          else a).

End Main.

End Bot.

(** ** Worlds used to exercise the dispatcher *)

Module Worlds.

Definition config : gmap string string :=
  {[ "timezone" := "America/Mexico_City";
     "message_template" := "Week {week}: {name}" ]}.

(** Both files loaded, the clock in week 34 of 2025, and a messaging API
    that returns or raises as [answer] says. *)
Definition world (environ : gmap string string) (answer : bool) : Bot.world := {|
  Bot.environ := environ;
  Bot.files := Some (config, Fixtures.schedule_with_overrides);
  Bot.now_isocalendar := λ _, Ok (2025, 34, 2);
  Bot.api_send := λ _ _, answer
|}.

Definition credentials : gmap string string :=
  {[ "TELEGRAM_BOT_TOKEN" := "token"; "TELEGRAM_CHAT_ID" := "chat" ]}.

Definition args (dry : bool) (week : option Z) : Bot.args :=
  {| Bot.dry_run := dry; Bot.test_week := week; Bot.test := false |}.

Definition run := @Bot.run Plain.runtime.

End Worlds.

(** ** Proof steps used throughout *)

(** Unfold the result monad. *)
Ltac rsimpl :=
  cbn [mbind mret fmap result_bind result_ret result_fmap] in *.

(** Settle a decidable proposition by evaluation. *)
Ltac by_decide := apply (bool_decide_unpack _); vm_compute; exact I.

(** Exhibit the outcome of a run by evaluation. *)
Ltac by_run := eexists; vm_compute; reflexivity.

(** * Replaying the repository's tests *)

Example int_plain : Py.int "2025" = Ok 2025.
Proof. reflexivity. Qed.

Example int_blanks_sign_underscore : Py.int " +1_2_3 " = Ok 123.
Proof. reflexivity. Qed.

Example int_rejects :
  Py.int "" = Raise ValueError ∧ Py.int "- 5" = Raise ValueError ∧
  Py.int "1__0" = Raise ValueError ∧ Py.int "1_" = Raise ValueError ∧
  Py.int "_1" = Raise ValueError ∧ Py.int "5 5" = Raise ValueError.
Proof. repeat split. Qed.

Example split_examples :
  Py.split_dash_w "2025-W31" = ["2025"; "31"] ∧
  Py.split_dash_w "a-Wb-Wc" = ["a"; "b"; "c"] ∧
  Py.split_dash_w "--W" = ["-"; ""] ∧
  Py.split_dash_w "" = [""].
Proof. repeat split. Qed.

Example week_number_examples :
  get_week_number "2025-W31" = Ok 31 ∧ get_week_number "2025-W09" = Ok 9.
Proof. split; reflexivity. Qed.

Example test_schedule_overrides :
  fst <$> get_responsible_person "2025-W32" Fixtures.schedule_with_overrides = Ok "Adrian" ∧
  fst <$> get_responsible_person "2025-W35" Fixtures.schedule_with_overrides = Ok "Esteban".
Proof. split; vm_compute; reflexivity. Qed.

Example test_vacation_coverage :
  fst <$> get_responsible_person "2025-W34" Fixtures.schedule_with_overrides = Ok "Vanish" ∧
  fst <$> get_responsible_person "2025-W40" Fixtures.schedule_with_overrides = Ok "Chito".
Proof. split; vm_compute; reflexivity. Qed.

Example test_special_messages :
  snd <$> get_responsible_person "2025-W52" Fixtures.schedule_with_overrides
  = Ok (Some "Holiday week: {name} is responsible!").
Proof. vm_compute; reflexivity. Qed.

Example test_far_future_weeks :
  fst <$> get_responsible_person "2027-W01" (Fixtures.rotation_only ["A"; "B"; "C"] "2025-W01")
  = Ok "C".
Proof. vm_compute; reflexivity. Qed.

Example test_past_weeks :
  fst <$> get_responsible_person "2025-W30" (Fixtures.rotation_only ["X"; "Y"; "Z"] "2025-W31")
  = Ok "Z".
Proof. vm_compute; reflexivity. Qed.

Example test_year_boundary :
  let s := Fixtures.rotation_only ["A"; "B"] "2025-W52" in
  fst <$> get_responsible_person "2025-W52" s = Ok "A" ∧
  fst <$> get_responsible_person "2026-W01" s = Ok "B" ∧
  fst <$> get_responsible_person "2026-W02" s = Ok "A".
Proof. repeat split; vm_compute; reflexivity. Qed.

Example test_format_basic_message :
  Plain.format_message "Week {week}: {name} is responsible!" "Esteban" "2025-W31" None
  = Ok "Week 31: Esteban is responsible!".
Proof. vm_compute. reflexivity. Qed.

Example test_format_message_with_special :
  Plain.format_message "Regular: {name} for week {week}" "Chema" "2025-W52"
    (Some "Special: {name} on week {week}!")
  = Ok "Special: Chema on week 52!".
Proof. vm_compute. reflexivity. Qed.

Example format_failures :
  Plain.format_message "{foo}" "A" "2025-W01" None = Raise KeyError ∧
  Plain.format_message "{}" "A" "2025-W01" None = Raise IndexError ∧
  Plain.format_message "{0}" "A" "2025-W01" None = Raise IndexError ∧
  Plain.format_message "{99999999999999999999999}" "A" "2025-W01" None = Raise ValueError ∧
  Plain.format_message "a{" "A" "2025-W01" None = Raise ValueError ∧
  Plain.format_message "}" "A" "2025-W01" None = Raise ValueError ∧
  Plain.format_message "{name" "A" "2025-W01" None = Raise ValueError ∧
  Plain.format_message "{na{me}" "A" "2025-W01" None = Raise ValueError ∧
  Plain.format_message "{name:{foo}}" "A" "2025-W01" None = Raise KeyError ∧
  Plain.format_message "{ name}" "A" "2025-W01" None = Raise KeyError ∧
  Plain.format_message "{name}" "A" "2025" None = Raise IndexError.
Proof. repeat split; vm_compute; reflexivity. Qed.

Example format_escapes :
  Plain.format_message "}}{{ {{name}} {name:}" "A" "2025-W01" None = Ok "}{ {name} A".
Proof. vm_compute. reflexivity. Qed.

(** * Lemmas on the runtime model *)

Lemma bind_returns {A B} (m : result A) (f : A → result B) b :
  m ≫= f = Ok b → ∃ a, m = Ok a ∧ f a = Ok b.
Proof. destruct m as [a|e]; rsimpl; [eauto | discriminate]. Qed.

Lemma mod_nonzero a b : b ≠ 0 → Py.mod_ a b = Ok (a mod b).
Proof. intros Hb. unfold Py.mod_. by rewrite (proj2 (Z.eqb_neq b 0) Hb). Qed.

Lemma mod_zero a : Py.mod_ a 0 = Raise ZeroDivisionError.
Proof. reflexivity. Qed.

Lemma getitem_in_range {A} (l : list A) (i : Z) :
  0 ≤ i < Z.of_nat (length l) →
  ∃ x, l !! Z.to_nat i = Some x ∧ Py.getitem l i = Ok x.
Proof.
  intros [Hlo Hhi]. unfold Py.getitem.
  destruct (lookup_lt_is_Some_2 l (Z.to_nat i)) as [x Hx]; [lia|].
  exists x. split; [done|].
  assert (Hb : (i <? 0) = false) by lia.
  rewrite Hb. cbv zeta. by rewrite Hb, Hx.
Qed.

Lemma getitem_mod {A} (l : list A) (a : Z) :
  l ≠ [] →
  let i := a mod Z.of_nat (length l) in
  0 ≤ i < Z.of_nat (length l) ∧
  ∃ x, l !! Z.to_nat i = Some x ∧ Py.getitem l i = Ok x.
Proof.
  intros Hl i.
  assert (0 < Z.of_nat (length l)) by (destruct l; [done | simpl; lia]).
  assert (0 ≤ i < Z.of_nat (length l)) by (apply Z.mod_pos_bound; lia).
  split; [done|]. by apply getitem_in_range.
Qed.

Lemma index_first_occurrence (x : string) (l : list string) :
  x ∈ l → ∃ i, Py.index x l = Ok i ∧ first_occurrence l x i.
Proof.
  induction l as [|y l IH]; intros Hin.
  - by apply elem_of_nil in Hin.
  - simpl. case_bool_decide as Hy.
    + subst y. exists 0%nat. split; [done|]. split; [done|]. apply not_elem_of_nil.
    + apply elem_of_cons in Hin as [->|Hin]; [done|].
      destruct (IH Hin) as (i & Hi & Hat & Hbefore).
      exists (S i). rewrite Hi. split; [done|]. split; [done|].
      simpl. apply not_elem_of_cons. split; [congruence | done].
Qed.

Lemma first_occurrence_unique (l : list string) x i j :
  first_occurrence l x i → first_occurrence l x j → i = j.
Proof.
  intros [Hi Hbi] [Hj Hbj].
  destruct (Nat.lt_trichotomy i j) as [Hlt|[->|Hlt]]; [|done|].
  - destruct Hbj. apply elem_of_take. eauto.
  - destruct Hbi. apply elem_of_take. eauto.
Qed.

(** * Lemmas on vacation coverage and the vacation loop *)

Lemma coverage_outside_rotation person W s :
  person ∉ default_rotation s → get_vacation_coverage person W s = Ok None.
Proof. intros Hn. unfold get_vacation_coverage. by rewrite bool_decide_eq_true_2. Qed.

Lemma coverage_next person W s i :
  first_occurrence (default_rotation s) person i →
  ∃ c, default_rotation s !! ((i + 1) mod length (default_rotation s))%nat = Some c ∧
       get_vacation_coverage person W s = Ok (Some c).
Proof.
  intros Hfirst. pose proof Hfirst as [Hat _].
  assert (Hin : person ∈ default_rotation s) by (by eapply list_elem_of_lookup_2).
  destruct (index_first_occurrence _ _ Hin) as (i' & Hidx & Hfirst').
  rewrite (first_occurrence_unique _ _ _ _ Hfirst' Hfirst) in Hidx. clear i' Hfirst'.
  unfold get_vacation_coverage.
  rewrite bool_decide_eq_false_2 by (intros Hn; by apply Hn).
  rewrite Hidx. rsimpl.
  assert (Hne : default_rotation s ≠ []).
  { intros E. rewrite E in Hin. by apply elem_of_nil in Hin. }
  assert (Hlen : (0 < length (default_rotation s))%nat).
  { destruct (default_rotation s); [done | simpl; lia]. }
  rewrite mod_nonzero by lia. rsimpl.
  destruct (getitem_mod (default_rotation s) (Z.of_nat i + 1) Hne) as (_ & c & Hc & Hget).
  rewrite Hget. rsimpl. exists c. split; [|done].
  rewrite <- Hc. f_equal.
  replace (Z.of_nat i + 1) with (Z.of_nat (i + 1)) by lia.
  rewrite <- Nat2Z.inj_mod. by rewrite Nat2Z.id.
Qed.

Lemma coverage_never_raises person W s :
  ∃ r, get_vacation_coverage person W s = Ok r.
Proof.
  destruct (decide (person ∈ default_rotation s)) as [Hin|Hn].
  - destruct (index_first_occurrence _ _ Hin) as (i & _ & Hfirst).
    destruct (coverage_next person W s i Hfirst) as (c & _ & Hc). eauto.
  - eexists. by apply coverage_outside_rotation.
Qed.

Lemma coverage_in_rotation person W s c :
  get_vacation_coverage person W s = Ok (Some c) → c ∈ default_rotation s.
Proof.
  intros Hc. destruct (decide (person ∈ default_rotation s)) as [Hin|Hn].
  - destruct (index_first_occurrence _ _ Hin) as (i & _ & Hfirst).
    destruct (coverage_next person W s i Hfirst) as (c' & Hat & Hc').
    rewrite Hc in Hc'. injection Hc' as ->. by eapply list_elem_of_lookup_2.
  - rewrite coverage_outside_rotation in Hc by done. discriminate.
Qed.

Lemma truthy_nonempty (c : string) : Py.truthy c = true ↔ c ≠ "".
Proof. destruct c; simpl; split; congruence. Qed.

Lemma skipped_no_yield W s entry :
  skipped W s entry ↔ ∀ c, ¬ yields W s entry c.
Proof.
  split.
  - intros [Hw|[Hc|Hc]] c (Hin & Hcov & Hne); [done| |]; rewrite Hcov in Hc; congruence.
  - intros Hno. destruct (decide (W ∈ entry.2)) as [Hin|]; [|by left]. right.
    destruct (coverage_never_raises entry.1 W s) as [[c|] Hr]; [|by left].
    destruct (decide (c = "")) as [->|Hne]; [by right|].
    by destruct (Hno c).
Qed.

Lemma vacation_loop_yield W s entry items c :
  yields W s entry c → vacation_loop (entry :: items) W s = Ok (Some c).
Proof.
  destruct entry as [person weeks]. intros (Hin & Hcov & Hne). simpl in *.
  rewrite bool_decide_eq_true_2 by done. rewrite Hcov. rsimpl.
  by rewrite (proj2 (truthy_nonempty c) Hne).
Qed.

Lemma vacation_loop_skip W s entry items :
  skipped W s entry → vacation_loop (entry :: items) W s = vacation_loop items W s.
Proof.
  destruct entry as [person weeks]. intros [Hw|[Hc|Hc]]; simpl in *.
  - by rewrite bool_decide_eq_false_2.
  - case_bool_decide; [|done]. by rewrite Hc.
  - case_bool_decide; [|done]. by rewrite Hc.
Qed.

Lemma vacation_loop_app W s pre post :
  no_coverage_in pre W s →
  vacation_loop (pre ++ post) W s = vacation_loop post W s.
Proof.
  induction 1 as [|entry pre Hskip _ IH]; [done|].
  rewrite <- app_comm_cons, vacation_loop_skip by done. apply IH.
Qed.

Lemma vacation_loop_none W s items :
  no_coverage_in items W s ↔ vacation_loop items W s = Ok None.
Proof.
  induction items as [|entry items IH].
  - split; [done | constructor].
  - destruct (decide (skipped W s entry)) as [Hs|Hn].
    + rewrite vacation_loop_skip by done. rewrite <- IH. split.
      * by inversion 1.
      * by constructor.
    + split; [by inversion 1|]. intros Hloop. exfalso. apply Hn.
      apply skipped_no_yield. intros c Hy.
      rewrite (vacation_loop_yield _ _ _ _ _ Hy) in Hloop. discriminate.
Qed.

Lemma vacation_loop_some W s items c :
  vacation_loop items W s = Ok (Some c) ↔
  ∃ pre entry post,
    items = pre ++ entry :: post ∧ no_coverage_in pre W s ∧ yields W s entry c.
Proof.
  split.
  - induction items as [|entry items IH]; [discriminate|].
    destruct (decide (skipped W s entry)) as [Hs|Hn].
    + rewrite vacation_loop_skip by done. intros Hloop.
      destruct (IH Hloop) as (pre & e & post & -> & Hpre & Hy).
      exists (entry :: pre), e, post. split; [done|]. split; [by constructor | done].
    + intros Hloop. exists [], entry, items. split; [done|]. split; [constructor|].
      destruct entry as [person weeks]. simpl in Hloop.
      case_bool_decide as Hin.
      * destruct (coverage_never_raises person W s) as [[c'|] Hr]; rewrite Hr in Hloop; rsimpl.
        -- destruct (Py.truthy c') eqn:Ht.
           ++ injection Hloop as ->. split; [done|]. split; [done|]. by apply truthy_nonempty.
           ++ destruct c'; [|discriminate]. destruct Hn. right. by right.
        -- destruct Hn. right. by left.
      * destruct Hn. by left.
  - intros (pre & entry & post & -> & Hpre & Hy).
    rewrite vacation_loop_app by done. by apply vacation_loop_yield.
Qed.

Lemma vacation_loop_returns W s items : ∃ r, vacation_loop items W s = Ok r.
Proof.
  induction items as [|entry items [r IH]]; [by eexists|].
  destruct (decide (skipped W s entry)) as [Hs|Hn].
  - rewrite vacation_loop_skip by done. eauto.
  - destruct entry as [person weeks]. simpl.
    case_bool_decide; [|eauto].
    destruct (coverage_never_raises person W s) as [[c|] Hr]; rewrite Hr; rsimpl; [|eauto].
    destruct (Py.truthy c); eauto.
Qed.

Lemma no_match_no_coverage W s : no_vacation_match W s → no_coverage W s.
Proof.
  unfold no_vacation_match, no_coverage, no_coverage_in. intros Hno.
  eapply Forall_impl; [exact Hno|]. intros entry Hn. by left.
Qed.

Lemma empty_rotation_no_coverage W s : default_rotation s = [] → no_coverage W s.
Proof.
  intros Hr. unfold no_coverage, no_coverage_in. apply Forall_forall.
  intros entry _. right. left. apply coverage_outside_rotation.
  rewrite Hr. apply not_elem_of_nil.
Qed.

Lemma total_weeks_of_pair W :
  get_total_weeks_since_epoch W = (λ '(y, w), total_weeks y w) <$> year_and_week W.
Proof.
  unfold get_total_weeks_since_epoch, year_and_week.
  destruct (Py.split_dash_w W) as [|ys [|ws [|? ?]]]; try done.
  destruct (Py.int ys); [|done]. rsimpl. by destruct (Py.int ws).
Qed.

(** The resolver, branch by branch. *)
Lemma resolve_vacation W s c :
  vacation_loop (vacation_weeks s) W s = Ok (Some c) →
  get_responsible_person W s = Ok (c, special_messages s !! W).
Proof. intros H. unfold get_responsible_person. by rewrite H. Qed.

Lemma resolve_override W s p :
  no_coverage W s → schedule_overrides s !! W = Some p →
  get_responsible_person W s = Ok (p, special_messages s !! W).
Proof.
  intros Hn Ho. apply vacation_loop_none in Hn.
  unfold get_responsible_person. rewrite Hn. rsimpl. by rewrite Ho.
Qed.

Lemma resolve_rotation W s :
  no_coverage W s → schedule_overrides s !! W = None →
  get_responsible_person W s
  = (λ p, (p, special_messages s !! W)) <$> rotation_branch W s.
Proof.
  intros Hn Ho. apply vacation_loop_none in Hn.
  unfold get_responsible_person. rewrite Hn. rsimpl. rewrite Ho.
  by destruct (rotation_branch W s).
Qed.

Lemma rotation_branch_index W s y w y0 w0 :
  year_and_week W = Ok (y, w) →
  year_and_week (start_week s) = Ok (y0, w0) →
  default_rotation s ≠ [] →
  let index := (total_weeks y w - total_weeks y0 w0) mod Z.of_nat (length (default_rotation s)) in
  0 ≤ index < Z.of_nat (length (default_rotation s)) ∧
  ∃ p, default_rotation s !! Z.to_nat index = Some p ∧ rotation_branch W s = Ok p.
Proof.
  intros HW Hstart Hne index.
  destruct (getitem_mod (default_rotation s) (total_weeks y w - total_weeks y0 w0) Hne)
    as (Hrange & p & Hp & Hget).
  split; [done|]. exists p. split; [done|].
  unfold rotation_branch. rewrite !total_weeks_of_pair, HW, Hstart. rsimpl.
  rewrite mod_nonzero by (destruct (default_rotation s); [done | simpl; lia]).
  done.
Qed.

Lemma total_weeks_returns W :
  returns (get_total_weeks_since_epoch W) ↔ returns (year_and_week W).
Proof.
  rewrite total_weeks_of_pair. split.
  - intros [tw Htw]. destruct (year_and_week W) as [yw|]; [by eexists | discriminate].
  - intros [[y w] ->]. by eexists.
Qed.

Lemma rotation_branch_returns W s :
  default_rotation s ≠ [] →
  returns (rotation_branch W s) ↔
  returns (get_total_weeks_since_epoch W) ∧
  returns (get_total_weeks_since_epoch (start_week s)).
Proof.
  intros Hne. rewrite !total_weeks_returns. split.
  - intros [p Hp]. unfold rotation_branch in Hp. rewrite !total_weeks_of_pair in Hp.
    destruct (year_and_week W) as [yw|]; [|discriminate].
    destruct (year_and_week (start_week s)) as [yw0|]; [|discriminate].
    split; by eexists.
  - intros [[[y w] HW] [[y0 w0] Hs]].
    destruct (rotation_branch_index W s y w y0 w0 HW Hs Hne) as (_ & p & _ & Hp).
    by exists p.
Qed.


(** * The resolver's properties *)

(** Claim C1, as amended. The vacation loop is tried first, the override
    second, the rotation last. When a week has an override and a rotation
    member is away, the person returned is the coverage of the first entry
    of [vacation_weeks], in iteration order, whose set holds the week and
    whose coverage (the name after the person's first position in the
    rotation, wrapping) is not the empty name; earlier entries are those the
    loop passes over. The override is returned only when no entry yields a
    coverage, the rotation only when there is no override either. *)
Theorem vacation_then_override_then_rotation (W : string) (s : schedule) :
  let m := special_messages s !! W in
  (∀ pre person weeks post i c,
      vacation_weeks s = pre ++ (person, weeks) :: post →
      no_coverage_in pre W s →
      W ∈ weeks →
      first_occurrence (default_rotation s) person i →
      default_rotation s !! ((i + 1) mod length (default_rotation s))%nat = Some c →
      c ≠ "" →
      get_responsible_person W s = Ok (c, m)) ∧
  (∀ p, no_coverage W s → schedule_overrides s !! W = Some p →
      get_responsible_person W s = Ok (p, m)) ∧
  (no_coverage W s → schedule_overrides s !! W = None →
      get_responsible_person W s = (λ p, (p, m)) <$> rotation_branch W s).
Proof.
  intros m. split; [|split].
  - intros pre person weeks post i c Hitems Hpre Hin Hfirst Hnext Hne.
    apply resolve_vacation. apply vacation_loop_some.
    exists pre, (person, weeks), post. split; [done|]. split; [done|].
    destruct (coverage_next person W s i Hfirst) as (c' & Hc' & Hcov).
    rewrite Hnext in Hc'. injection Hc' as <-. by repeat split.
  - intros p. apply resolve_override.
  - apply resolve_rotation.
Qed.

Lemma vacation_then_override_then_rotation_witness :
  get_responsible_person "2025-W34" Scenarios.vacation_and_override
    = Ok ("Vanish", None) ∧
  get_responsible_person "2025-W32" Scenarios.vacation_and_override
    = Ok ("Adrian", None) ∧
  get_responsible_person "2025-W33" Scenarios.vacation_and_override
    = (λ p, (p, None)) <$> rotation_branch "2025-W33" Scenarios.vacation_and_override.
Proof.
  split; [|split].
  - apply (proj1 (vacation_then_override_then_rotation
                    "2025-W34" Scenarios.vacation_and_override)
             [] "Chito" ["2025-W34"] [("Adrian", ["2025-W40"; "2025-W41"])] 3%nat "Vanish").
    + reflexivity.
    + constructor.
    + by_decide.
    + by_decide.
    + reflexivity.
    + discriminate.
  - apply (proj1 (proj2 (vacation_then_override_then_rotation
                           "2025-W32" Scenarios.vacation_and_override)) "Adrian").
    + by_decide.
    + vm_compute. reflexivity.
  - apply (proj2 (proj2 (vacation_then_override_then_rotation
                           "2025-W33" Scenarios.vacation_and_override))).
    + by_decide.
    + vm_compute. reflexivity.
Defined.

(** Claim C1 as stated fails when two rotation members are away the same
    week: Esteban is a member whose set holds the week, his coverage is
    Chema, and the week has an override, yet the person returned is Vanish,
    the coverage of Chito, who comes first in [vacation_weeks]. *)
Lemma later_vacationer_not_honoured :
  is_Some (schedule_overrides Scenarios.two_on_vacation !! "2025-W34") ∧
  on_vacation "2025-W34" Scenarios.two_on_vacation "Esteban" ∧
  "Esteban" ∈ default_rotation Scenarios.two_on_vacation ∧
  get_vacation_coverage "Esteban" "2025-W34" Scenarios.two_on_vacation
    = Ok (Some "Chema") ∧
  get_responsible_person "2025-W34" Scenarios.two_on_vacation = Ok ("Vanish", None).
Proof.
  split; [by_run|]. split; [|split; [by_decide|split; vm_compute; reflexivity]].
  exists ["2025-W34"]. split; by_decide.
Qed.




(** Claim C3. For a week with no vacation match and no override, read as
    year [y] and week [w], with [start_week] read as [y0] and [w0] and a
    non-empty rotation, the resolver returns the rotation entry at
    [(total_weeks y w - total_weeks y0 w0) mod len], where
    [total_weeks y w = (y - 2000) * 52 + w] and the modulo is floored, so
    the index lies in [0, len) also for weeks before [start_week]. *)
Theorem default_rotation_by_week_offset (W : string) (s : schedule) (y w y0 w0 : Z) :
  no_vacation_match W s →
  schedule_overrides s !! W = None →
  year_and_week W = Ok (y, w) →
  year_and_week (start_week s) = Ok (y0, w0) →
  default_rotation s ≠ [] →
  let len := Z.of_nat (length (default_rotation s)) in
  let index := (((y - 2000) * 52 + w) - ((y0 - 2000) * 52 + w0)) mod len in
  0 ≤ index < len ∧
  ∃ p, default_rotation s !! Z.to_nat index = Some p ∧
       get_responsible_person W s = Ok (p, special_messages s !! W).
Proof.
  intros Hno Ho HW Hstart Hne len index.
  destruct (rotation_branch_index W s y w y0 w0 HW Hstart Hne) as (Hrange & p & Hp & Hb).
  split; [exact Hrange|]. exists p. split; [exact Hp|].
  rewrite resolve_rotation by (by try apply no_match_no_coverage).
  by rewrite Hb.
Qed.

Lemma default_rotation_by_week_offset_witness :
  let resolve W := get_responsible_person W Fixtures.basic_schedule in
  resolve "2025-W31" = Ok ("Esteban", None) ∧
  resolve "2025-W32" = Ok ("Chema", None) ∧
  resolve "2025-W33" = Ok ("Adrian", None) ∧
  resolve "2025-W34" = Ok ("Chito", None) ∧
  resolve "2025-W35" = Ok ("Vanish", None) ∧
  resolve "2025-W36" = Ok ("JC", None) ∧
  resolve "2025-W37" = Ok ("Esteban", None) ∧
  resolve "2025-W30" = Ok ("JC", None).
Proof.
  intros resolve. unfold resolve.
  assert (Hweek : ∀ W w p,
             year_and_week W = Ok (2025, w) →
             Fixtures.six !! Z.to_nat ((((2025 - 2000) * 52 + w)
                                        - ((2025 - 2000) * 52 + 31)) mod 6) = Some p →
             get_responsible_person W Fixtures.basic_schedule = Ok (p, None)).
  { intros W w p HW Hp.
    assert (Hno : no_vacation_match W Fixtures.basic_schedule) by constructor.
    assert (Hne : default_rotation Fixtures.basic_schedule ≠ []) by discriminate.
    destruct (default_rotation_by_week_offset W Fixtures.basic_schedule 2025 w 2025 31
                Hno eq_refl HW eq_refl Hne) as (_ & q & Hq & Hres).
    change (default_rotation Fixtures.basic_schedule) with Fixtures.six in Hq.
    change (Z.of_nat (length Fixtures.six)) with 6 in Hq.
    rewrite Hp in Hq. injection Hq as <-. exact Hres. }
  repeat apply conj.
  - apply (Hweek "2025-W31" 31); reflexivity.
  - apply (Hweek "2025-W32" 32); reflexivity.
  - apply (Hweek "2025-W33" 33); reflexivity.
  - apply (Hweek "2025-W34" 34); reflexivity.
  - apply (Hweek "2025-W35" 35); reflexivity.
  - apply (Hweek "2025-W36" 36); reflexivity.
  - apply (Hweek "2025-W37" 37); reflexivity.
  - apply (Hweek "2025-W30" 30); reflexivity.
Defined.

Lemma rotation_branch_shift W W' s y w y' w' :
  year_and_week W = Ok (y, w) →
  year_and_week W' = Ok (y', w') →
  total_weeks y' w' = total_weeks y w + Z.of_nat (length (default_rotation s)) →
  rotation_branch W s = rotation_branch W' s.
Proof.
  intros HW HW' Hshift. unfold rotation_branch.
  rewrite !total_weeks_of_pair, HW, HW'. rsimpl.
  destruct (year_and_week (start_week s)) as [[y0 w0]|]; [|done]. rsimpl.
  destruct (decide (Z.of_nat (length (default_rotation s)) = 0)) as [Hz|Hnz].
  - rewrite Hz in *. by rewrite Hshift, Z.add_0_r.
  - rewrite !mod_nonzero by done. rsimpl. rewrite Hshift.
    replace (total_weeks y w + Z.of_nat (length (default_rotation s)) - total_weeks y0 w0)
      with (total_weeks y w - total_weeks y0 w0 + 1 * Z.of_nat (length (default_rotation s)))
      by lia.
    by rewrite Z_mod_plus_full.
Qed.

Lemma calendar_weeks_in_linear_count (n : nat) :
  ∀ y w y' w',
    Iso.weeks_after n (y, w) = (y', w') →
    Iso.no_week_53 n (y, w) = true →
    total_weeks y' w' = total_weeks y w + Z.of_nat n.
Proof.
  induction n as [|n IH]; intros y w y' w' Hafter Hno.
  - simpl in Hafter. injection Hafter as <- <-. lia.
  - cbn [Iso.weeks_after Iso.no_week_53] in Hafter, Hno.
    apply andb_true_iff in Hno as [Hw Hno]. apply Z.leb_le in Hw. simpl in Hw.
    assert (Hweeks : 52 ≤ Iso.weeks_in_year y).
    { unfold Iso.weeks_in_year. destruct (_ || _); lia. }
    unfold Iso.next_week in Hafter, Hno.
    destruct (Z.ltb_spec w (Iso.weeks_in_year y)).
    + rewrite (IH _ _ _ _ Hafter Hno). unfold total_weeks. lia.
    + rewrite (IH _ _ _ _ Hafter Hno). unfold total_weeks. lia.
Qed.

(** Claim C4, as amended. Take two weeks read as [(y, w)] and [(y', w')],
    the second lying as many weeks after the first as the rotation is long:
    either in the linear count of the resolver, or in the calendar of ISO
    weeks with no week 53 among the weeks from the first up to the second.
    If neither has a vacation match or an override, the resolver gives the
    same outcome for both, and with a non-empty rotation and a readable
    [start_week] that outcome is one and the same person. *)
Theorem rotation_periodicity (W W' : string) (s : schedule) (y w y' w' : Z) :
  year_and_week W = Ok (y, w) →
  year_and_week W' = Ok (y', w') →
  (y' - 2000) * 52 + w' = (y - 2000) * 52 + w + Z.of_nat (length (default_rotation s)) ∨
  (Iso.weeks_after (length (default_rotation s)) (y, w) = (y', w') ∧
   Iso.no_week_53 (length (default_rotation s)) (y, w) = true) →
  no_vacation_match W s →
  no_vacation_match W' s →
  schedule_overrides s !! W = None →
  schedule_overrides s !! W' = None →
  fst <$> get_responsible_person W s = fst <$> get_responsible_person W' s ∧
  (default_rotation s ≠ [] → returns (year_and_week (start_week s)) →
   ∃ p, fst <$> get_responsible_person W s = Ok p ∧
        fst <$> get_responsible_person W' s = Ok p).
Proof.
  intros HW HW' Hdistance Hv Hv' Ho Ho'.
  assert (Hshift : total_weeks y' w'
                   = total_weeks y w + Z.of_nat (length (default_rotation s))).
  { destruct Hdistance as [Hlinear|[Hafter Hno]]; [exact Hlinear|].
    by apply calendar_weeks_in_linear_count. }
  rewrite !resolve_rotation by (by try apply no_match_no_coverage).
  rewrite <- (rotation_branch_shift W W' s y w y' w' HW HW' Hshift).
  split; [by destruct (rotation_branch W s)|].
  intros Hne [[y0 w0] Hstart].
  destruct (rotation_branch_index W s y w y0 w0 HW Hstart Hne) as (_ & p & _ & Hp).
  exists p. by rewrite Hp.
Qed.

Lemma rotation_periodicity_witness :
  fst <$> get_responsible_person "2025-W33" Fixtures.basic_schedule
  = fst <$> get_responsible_person "2025-W39" Fixtures.basic_schedule ∧
  fst <$> get_responsible_person "2025-W50" Fixtures.basic_schedule
  = fst <$> get_responsible_person "2026-W04" Fixtures.basic_schedule.
Proof.
  split.
  - apply (rotation_periodicity "2025-W33" "2025-W39" Fixtures.basic_schedule 2025 33 2025 39).
    + reflexivity.
    + reflexivity.
    + left. reflexivity.
    + constructor.
    + constructor.
    + reflexivity.
    + reflexivity.
  - apply (rotation_periodicity "2025-W50" "2026-W04" Fixtures.basic_schedule 2025 50 2026 4).
    + reflexivity.
    + reflexivity.
    + right. split; reflexivity.
    + constructor.
    + constructor.
    + reflexivity.
    + reflexivity.
Defined.

(** Claim C4 as stated fails across a week 53: 2026 has 53 weeks, so
    2027-W03 lies six weeks after 2026-W50, the rotation has six entries and
    neither week has a vacation or an override, yet the first resolves to JC
    and the second to Vanish. *)
Lemma six_weeks_across_week_53 :
  year_and_week "2026-W50" = Ok (2026, 50) ∧
  year_and_week "2027-W03" = Ok (2027, 3) ∧
  Iso.weeks_in_year 2026 = 53 ∧
  Iso.weeks_after (length (default_rotation Fixtures.basic_schedule)) (2026, 50) = (2027, 3) ∧
  no_vacation_match "2026-W50" Fixtures.basic_schedule ∧
  no_vacation_match "2027-W03" Fixtures.basic_schedule ∧
  schedule_overrides Fixtures.basic_schedule !! "2026-W50" = None ∧
  schedule_overrides Fixtures.basic_schedule !! "2027-W03" = None ∧
  get_responsible_person "2026-W50" Fixtures.basic_schedule = Ok ("JC", None) ∧
  get_responsible_person "2027-W03" Fixtures.basic_schedule = Ok ("Vanish", None).
Proof. repeat apply conj; try constructor; vm_compute; reflexivity. Qed.

(** Claim C5, as amended. The covering person for somebody whose first
    position in the rotation is [i] is the entry at [(i + 1) mod len]; when
    that position is the last one, it is the first entry of the rotation. A
    name that comes again later in the rotation is covered from its first
    position. *)
Theorem coverage_is_next_after_first_position
    (person W : string) (s : schedule) (i : nat) :
  first_occurrence (default_rotation s) person i →
  ∃ c, default_rotation s !! ((i + 1) mod length (default_rotation s))%nat = Some c ∧
       get_vacation_coverage person W s = Ok (Some c) ∧
       (S i = length (default_rotation s) → default_rotation s !! 0%nat = Some c).
Proof.
  intros Hfirst.
  destruct (coverage_next person W s i Hfirst) as (c & Hc & Hcov).
  exists c. split; [done|]. split; [done|].
  intros Hlast. rewrite <- Hc. f_equal.
  replace (i + 1)%nat with (length (default_rotation s)) by lia.
  symmetry. apply Nat.Div0.mod_same.
Qed.

Lemma coverage_is_next_after_first_position_witness :
  get_vacation_coverage "D" "2025-W01" Scenarios.four = Ok (Some "A") ∧
  get_vacation_coverage "A" "2025-W01" Scenarios.four = Ok (Some "B").
Proof.
  split.
  - assert (H : first_occurrence (default_rotation Scenarios.four) "D" 3) by by_decide.
    destruct (coverage_is_next_after_first_position "D" "2025-W01" Scenarios.four 3 H)
      as (c & _ & Hcov & Hwrap).
    specialize (Hwrap eq_refl). injection Hwrap as <-. exact Hcov.
  - assert (H : first_occurrence (default_rotation Scenarios.four) "A" 0) by by_decide.
    destruct (coverage_is_next_after_first_position "A" "2025-W01" Scenarios.four 0 H)
      as (c & Hnext & Hcov & _).
    injection Hnext as <-. exact Hcov.
Defined.

(** Claim C5 as stated fails when a name is repeated: in the rotation
    A, B, A the last entry, at index 2, is A, and the entry at
    (2 + 1) mod 3 = 0 is A, yet the person covering for A is B. *)
Lemma repeated_name_covered_from_first_position :
  let rotation := default_rotation Scenarios.repeated_name in
  rotation ≠ [] ∧
  rotation !! 2%nat = Some "A" ∧
  S 2 = length rotation ∧
  rotation !! ((2 + 1) mod length rotation)%nat = Some "A" ∧
  get_vacation_coverage "A" "2025-W01" Scenarios.repeated_name = Ok (Some "B").
Proof. repeat apply conj; try discriminate; vm_compute; reflexivity. Qed.

(** Claim C6. Whichever branch produces the person, the second component
    of the result is [special_messages.get(week)]. *)
Theorem special_message_in_every_branch (W : string) (s : schedule) :
  let m := special_messages s !! W in
  (∀ c, vacation_loop (vacation_weeks s) W s = Ok (Some c) →
        get_responsible_person W s = Ok (c, m)) ∧
  (∀ p, vacation_loop (vacation_weeks s) W s = Ok None →
        schedule_overrides s !! W = Some p →
        get_responsible_person W s = Ok (p, m)) ∧
  (∀ p, vacation_loop (vacation_weeks s) W s = Ok None →
        schedule_overrides s !! W = None →
        rotation_branch W s = Ok p →
        get_responsible_person W s = Ok (p, m)) ∧
  (∀ p m', get_responsible_person W s = Ok (p, m') → m' = m).
Proof.
  intros m. repeat apply conj.
  - apply resolve_vacation.
  - intros p Hloop. apply resolve_override. by apply vacation_loop_none.
  - intros p Hloop Ho Hb. rewrite resolve_rotation by (by try apply vacation_loop_none).
    by rewrite Hb.
  - intros p m' Hres. subst m. unfold get_responsible_person in Hres.
    destruct (vacation_loop _ _ _) as [[c|]|]; rsimpl; [congruence | | discriminate].
    destruct (schedule_overrides s !! W); [congruence|].
    destruct (rotation_branch W s); rsimpl; congruence.
Qed.

Lemma special_message_in_every_branch_witness :
  let s := Scenarios.vacation_and_override in
  get_responsible_person "2025-W34" s = Ok ("Vanish", special_messages s !! "2025-W34") ∧
  get_responsible_person "2025-W35" s = Ok ("Esteban", special_messages s !! "2025-W35") ∧
  get_responsible_person "2025-W52" s = Ok ("Chito", special_messages s !! "2025-W52") ∧
  special_messages s !! "2025-W52" = Some "Holiday week: {name} is responsible!".
Proof.
  intros s. repeat apply conj.
  - apply (proj1 (special_message_in_every_branch "2025-W34" s)).
    vm_compute. reflexivity.
  - apply (proj1 (proj2 (special_message_in_every_branch "2025-W35" s))).
    + vm_compute. reflexivity.
    + vm_compute. reflexivity.
  - apply (proj1 (proj2 (proj2 (special_message_in_every_branch "2025-W52" s)))).
    + vm_compute. reflexivity.
    + vm_compute. reflexivity.
    + vm_compute. reflexivity.
  - vm_compute. reflexivity.
Defined.

Lemma int_raises_value_error x e : Py.int x = Raise e → e = ValueError.
Proof.
  unfold Py.int. destruct (Py.read_sign _) as [sign body].
  destruct (Py.starts_with_underscore body); [congruence|].
  destruct (Py.scan_digits _ _ _ _) as [[[v digits] rest]|]; [|congruence].
  destruct (_ =? _)%nat; [congruence|]. destruct (_ <? _)%nat; [congruence|].
  destruct (Py.skip_spaces rest); [discriminate | congruence].
Qed.

Lemma total_weeks_raises W :
  raises (get_total_weeks_since_epoch W) →
  get_total_weeks_since_epoch W = Raise ValueError.
Proof.
  intros [e He]. unfold get_total_weeks_since_epoch in *.
  destruct (Py.split_dash_w W) as [|ys [|ws [|? ?]]]; try done.
  destruct (Py.int ys) eqn:Hy; rsimpl.
  - destruct (Py.int ws) eqn:Hw; rsimpl; [discriminate|].
    by rewrite (int_raises_value_error _ _ Hw).
  - by rewrite (int_raises_value_error _ _ Hy).
Qed.

(** Strings of digits, and week strings of the shape YYYY-W##, are read. *)
Lemma digit_not_blank_or_sign c :
  Py.isdigit c = true →
  Py.isspace c = false ∧ Ascii.eqb c "+" = false ∧ Ascii.eqb c "-" = false ∧
  Ascii.eqb c "_" = false.
Proof.
  unfold Py.isdigit, Py.isspace. intros Hd.
  apply andb_true_iff in Hd as [Hlo Hhi].
  apply Z.leb_le in Hlo, Hhi.
  assert (Hne : ∀ d, Py.ord d < 48 ∨ 57 < Py.ord d → Ascii.eqb c d = false).
  { intros d Hd. destruct (Ascii.eqb_spec c d) as [->|]; [lia | done]. }
  repeat apply conj.
  - repeat (apply orb_false_iff; split); try (apply andb_false_iff; right); lia.
  - apply Hne. left. by vm_compute.
  - apply Hne. left. by vm_compute.
  - apply Hne. right. by vm_compute.
Qed.

Lemma scan_all_digits s :
  ∀ acc n, Format.all_digits s = true →
  Py.scan_digits s false acc n
  = Some (Format.decimal_value acc s, (n + String.length s)%nat, "").
Proof.
  induction s as [|c s IH]; intros acc n Hall; simpl.
  - by rewrite Nat.add_0_r.
  - simpl in Hall. apply andb_true_iff in Hall as [Hc Hall].
    rewrite Hc, (IH _ _ Hall). do 3 f_equal. lia.
Qed.

Lemma int_of_digits s :
  Format.all_digits s = true → s ≠ "" →
  (String.length s ≤ Py.int_max_str_digits)%nat →
  Py.int s = Ok (Format.decimal_value 0 s).
Proof.
  intros Hall Hne Hlen. destruct s as [|c s]; [done|].
  pose proof Hall as Hall'. simpl in Hall'. apply andb_true_iff in Hall' as [Hc _].
  destruct (digit_not_blank_or_sign c Hc) as (Hsp & Hplus & Hminus & Hus).
  unfold Py.int. cbn [Py.skip_spaces]. rewrite Hsp.
  cbn [Py.read_sign]. rewrite Hplus, Hminus.
  cbn [Py.starts_with_underscore]. rewrite Hus.
  rewrite (scan_all_digits _ 0 0%nat Hall). rewrite Nat.add_0_l.
  rewrite (proj2 (Nat.ltb_ge _ _) Hlen). cbn [String.length Nat.eqb Py.skip_spaces].
  by rewrite Z.mul_1_l.
Qed.

Lemma split_digit c cur s :
  Py.isdigit c = true →
  Py.split_dash_w_from cur (String c s) = Py.split_dash_w_from (cur +:+ String c "") s.
Proof.
  intros Hc. destruct c as [[] [] [] [] [] [] [] []];
    try (vm_compute in Hc; discriminate Hc); reflexivity.
Qed.

Lemma split_separator cur rest :
  Py.split_dash_w_from cur (String "-" (String "W" rest))
  = cur :: Py.split_dash_w_from "" rest.
Proof. reflexivity. Qed.

Lemma iso_shape_read W :
  iso_shape W = true → ∃ y w, year_and_week W = Ok (y, w).
Proof.
  intros Hshape.
  destruct W as [|y1 [|y2 [|y3 [|y4 [|d [|w [|w1 [|w2 [|? ?]]]]]]]]]; try discriminate.
  cbn [iso_shape] in Hshape.
  apply andb_true_iff in Hshape as [Hshape Hw2].
  apply andb_true_iff in Hshape as [Hshape Hw1].
  apply andb_true_iff in Hshape as [Hshape Hw].
  apply andb_true_iff in Hshape as [Hshape Hd].
  apply andb_true_iff in Hshape as [Hshape Hy4].
  apply andb_true_iff in Hshape as [Hshape Hy3].
  apply andb_true_iff in Hshape as [Hy1 Hy2].
  apply Ascii.eqb_eq in Hd, Hw. subst d w.
  unfold year_and_week, Py.split_dash_w.
  rewrite !split_digit by done. rewrite split_separator.
  rewrite !split_digit by done. cbn [Py.split_dash_w_from]. cbv [String.append].
  assert (Hlen4 : (4 ≤ Py.int_max_str_digits)%nat) by (apply Nat.leb_le; by vm_compute).
  assert (Hlen2 : (2 ≤ Py.int_max_str_digits)%nat) by (apply Nat.leb_le; by vm_compute).
  rewrite (int_of_digits (String y1 (String y2 (String y3 (String y4 "")))));
    [|cbn [Format.all_digits]; by rewrite Hy1, Hy2, Hy3, Hy4 | done | exact Hlen4].
  rsimpl.
  rewrite (int_of_digits (String w1 (String w2 "")));
    [|cbn [Format.all_digits]; by rewrite Hw1, Hw2 | done | exact Hlen2].
  rsimpl. by eexists _, _.
Qed.

Lemma unreadable_raises W : unreadable W ↔ raises (get_total_weeks_since_epoch W).
Proof.
  unfold unreadable, get_total_weeks_since_epoch.
  destruct (Py.split_dash_w W) as [|ys [|ws [|? ?]]];
    try (split; [intros _; by eexists | done]).
  destruct (Py.int ys) as [y|ey]; rsimpl.
  - destruct (Py.int ws) as [w|ew]; rsimpl.
    + split; [intros [[? ?]|[? ?]]; discriminate | intros [? ?]; discriminate].
    + split; [intros _; by eexists | intros _; right; by eexists].
  - split; [intros _; by eexists | intros _; left; by eexists].
Qed.

(** Claim C9, as amended. A week string is unreadable when splitting it on
    the separator does not give exactly two pieces or [int] rejects one of
    them; no string of the shape YYYY-W## is unreadable, and unreadable
    strings are those on which the week count raises. When no vacation
    coverage applies and the week has no override, an unreadable week
    string makes the resolver raise, and so does an empty rotation, for
    which no coverage ever applies. When a coverage applies, the resolver
    returns it, and when none applies and the week has an override, it
    returns the override: in both cases whatever the week string and the
    rotation are. *)
Theorem unreadable_week_or_empty_rotation (W : string) (s : schedule) :
  (unreadable W → no_coverage W s → schedule_overrides s !! W = None →
     get_responsible_person W s = Raise ValueError) ∧
  (default_rotation s = [] → schedule_overrides s !! W = None →
     raises (get_responsible_person W s)) ∧
  (∀ pre entry post c,
     vacation_weeks s = pre ++ entry :: post →
     no_coverage_in pre W s →
     yields W s entry c →
     get_responsible_person W s = Ok (c, special_messages s !! W)) ∧
  (∀ p, no_coverage W s → schedule_overrides s !! W = Some p →
     get_responsible_person W s = Ok (p, special_messages s !! W)) ∧
  (unreadable W ↔ raises (get_total_weeks_since_epoch W)) ∧
  (unreadable W → iso_shape W = false).
Proof.
  repeat apply conj.
  - intros Hbad Hn Ho. apply unreadable_raises in Hbad.
    rewrite resolve_rotation by done.
    unfold rotation_branch. by rewrite (total_weeks_raises W Hbad).
  - intros Hempty Ho.
    rewrite resolve_rotation by (by try apply empty_rotation_no_coverage).
    unfold rotation_branch.
    destruct (get_total_weeks_since_epoch W) as [tw|e]; [|by exists e].
    destruct (get_total_weeks_since_epoch (start_week s)) as [ts|e]; [|by exists e].
    rsimpl. rewrite Hempty. by exists ZeroDivisionError.
  - intros pre entry post c Hitems Hpre Hyields.
    apply resolve_vacation. apply vacation_loop_some. by exists pre, entry, post.
  - intros p. apply resolve_override.
  - apply (proj1 (unreadable_raises W)).
  - apply (proj2 (unreadable_raises W)).
  - intros Hbad. apply unreadable_raises in Hbad as [e He].
    destruct (iso_shape W) eqn:Hshape; [|done].
    destruct (iso_shape_read W Hshape) as (y & w & Hyw).
    rewrite total_weeks_of_pair, Hyw in He. discriminate.
Qed.

Lemma unreadable_week_or_empty_rotation_witness :
  get_responsible_person "next week" Fixtures.basic_schedule = Raise ValueError ∧
  raises (get_responsible_person "2025-W31" (Fixtures.rotation_only [] "2025-W31")) ∧
  get_responsible_person "next week"
    (with_vacation_weeks Fixtures.basic_schedule [("Chito", ["next week"])])
    = Ok ("Vanish", None) ∧
  get_responsible_person "next week" Scenarios.empty_rotation_override
    = Ok ("Zed", None) ∧
  raises (get_total_weeks_since_epoch "next week") ∧
  iso_shape "next week" = false.
Proof.
  assert (Hbad : unreadable "next week") by (vm_compute; exact I).
  repeat apply conj.
  - apply (proj1 (unreadable_week_or_empty_rotation "next week" Fixtures.basic_schedule)).
    + exact Hbad.
    + constructor.
    + reflexivity.
  - apply (proj1 (proj2 (unreadable_week_or_empty_rotation
                           "2025-W31" (Fixtures.rotation_only [] "2025-W31")))).
    + reflexivity.
    + reflexivity.
  - apply (proj1 (proj2 (proj2 (unreadable_week_or_empty_rotation "next week"
               (with_vacation_weeks Fixtures.basic_schedule [("Chito", ["next week"])]))))
             [] ("Chito", ["next week"]) [] "Vanish").
    + reflexivity.
    + constructor.
    + split; [by_decide|]. split; [vm_compute; reflexivity | discriminate].
  - apply (proj1 (proj2 (proj2 (proj2 (unreadable_week_or_empty_rotation
                                         "next week" Scenarios.empty_rotation_override))))).
    + by_decide.
    + vm_compute. reflexivity.
  - apply (proj1 (proj1 (proj2 (proj2 (proj2 (proj2
               (unreadable_week_or_empty_rotation "next week" Fixtures.basic_schedule))))))).
    exact Hbad.
  - apply (proj2 (proj2 (proj2 (proj2 (proj2
               (unreadable_week_or_empty_rotation "next week" Fixtures.basic_schedule)))))).
    exact Hbad.
Defined.

(** Claim C9 as stated fails when the week has an override: the key is no
    week string and the rotation is empty, yet the resolver returns the
    override. A string that is not of the shape YYYY-W## need not be
    unreadable either: 2025-W7 resolves. *)
Lemma override_returned_for_unreadable_week :
  iso_shape "next week" = false ∧
  raises (get_total_weeks_since_epoch "next week") ∧
  default_rotation Scenarios.empty_rotation_override = [] ∧
  get_responsible_person "next week" Scenarios.empty_rotation_override
    = Ok ("Zed", None) ∧
  iso_shape "2025-W7" = false ∧
  get_responsible_person "2025-W7" Fixtures.basic_schedule = Ok ("Esteban", None).
Proof. repeat apply conj; try by_run; vm_compute; reflexivity. Qed.

Lemma vacation_loop_other_items W s items items' :
  vacation_loop items W (with_vacation_weeks s items') = vacation_loop items W s.
Proof.
  induction items as [|[person weeks] items IH]; [done|].
  simpl. rewrite IH. done.
Qed.

(** Claim C10. An entry of [vacation_weeks] whose set holds the week but
    whose person is not in the rotation has no coverage; the loop goes on to
    the later entries, and the resolver gives what it gives for the dataset
    without that entry: another entry's coverage, the override, the rotation
    entry, or the failure of the rotation branch. *)
Theorem vacation_of_non_member_skipped
    (W : string) (s : schedule) (pre post : list (string * list string))
    (person : string) (weeks : list string) :
  vacation_weeks s = pre ++ (person, weeks) :: post →
  W ∈ weeks →
  person ∉ default_rotation s →
  get_vacation_coverage person W s = Ok None ∧
  vacation_loop (pre ++ (person, weeks) :: post) W s = vacation_loop (pre ++ post) W s ∧
  get_responsible_person W s
  = get_responsible_person W (with_vacation_weeks s (pre ++ post)).
Proof.
  intros Hitems Hin Hout.
  pose proof (coverage_outside_rotation person W s Hout) as Hcov.
  assert (Hloop : vacation_loop (pre ++ (person, weeks) :: post) W s
                  = vacation_loop (pre ++ post) W s).
  { clear Hitems. induction pre as [|[q qs] pre IH]; simpl.
    - rewrite bool_decide_eq_true_2 by done. by rewrite Hcov.
    - by rewrite IH. }
  split; [done|]. split; [done|].
  unfold get_responsible_person. simpl.
  by rewrite vacation_loop_other_items, Hitems, Hloop.
Qed.

Lemma vacation_of_non_member_skipped_witness :
  get_vacation_coverage "Zed" "2025-W34" Scenarios.outsider_on_vacation = Ok None ∧
  get_responsible_person "2025-W34" Scenarios.outsider_on_vacation
  = get_responsible_person "2025-W34"
      (with_vacation_weeks Scenarios.outsider_on_vacation [("Chito", ["2025-W34"])]) ∧
  get_responsible_person "2025-W34" Scenarios.outsider_on_vacation = Ok ("Vanish", None).
Proof.
  assert (Hin : "2025-W34" ∈ ["2025-W34"]) by by_decide.
  assert (Hout : "Zed" ∉ default_rotation Scenarios.outsider_on_vacation) by by_decide.
  destruct (vacation_of_non_member_skipped "2025-W34" Scenarios.outsider_on_vacation
              [] [("Chito", ["2025-W34"])] "Zed" ["2025-W34"] eq_refl Hin Hout)
    as (Hcov & _ & Hres).
  split; [exact Hcov|]. split; [exact Hres|]. vm_compute. reflexivity.
Defined.

(** * The formatter's properties *)

Lemma raises_bind {A B} (m : result A) (f : A → result B) :
  raises m → raises (m ≫= f).
Proof. intros [e ->]. by exists e. Qed.

Lemma raises_bind_cont {A B} (m : result A) (f : A → result B) :
  (∀ a, raises (f a)) → raises (m ≫= f).
Proof. intros Hf. destruct m as [a|e]; [apply Hf | by exists e]. Qed.

Lemma get_argument_unknown (a name : string) (week : Z) :
  a ≠ "name" → a ≠ "week" → raises (Format.get_argument a name week).
Proof.
  intros Hn Hw. unfold Format.get_argument.
  destruct a as [|c a']; [by eexists|].
  destruct (Format.all_digits _).
  - destruct (_ <? _); by eexists.
  - rewrite (proj2 (String.eqb_neq _ _) Hn), (proj2 (String.eqb_neq _ _) Hw).
    by eexists.
Qed.

(** Without an opening brace the scanner, started in text, finds no field. *)
Lemma markup_text_no_field (k : nat) :
  ∀ s, (String.length s ≤ k)%nat →
       Format.needs_expanding s = false →
       ∀ n cv spec, Format.Field n cv spec ∉ Format.markup Format.InText s.
Proof.
  induction k as [|k IH]; intros s Hlen Hno n cv spec Hin.
  - destruct s; [by apply elem_of_nil in Hin | simpl in Hlen; lia].
  - destruct s as [|c s']; [by apply elem_of_nil in Hin|].
    simpl in Hlen, Hno. apply orb_false_iff in Hno as [Hc Hno].
    simpl in Hin. rewrite Hc in Hin.
    destruct (Ascii.eqb c "}").
    + destruct s' as [|d rest]; [by apply list_elem_of_singleton in Hin|].
      simpl in Hlen, Hno. apply orb_false_iff in Hno as [_ Hno].
      destruct (Ascii.eqb d "}"); [|by apply list_elem_of_singleton in Hin].
      apply elem_of_cons in Hin as [?|Hin]; [done|].
      by apply (IH rest ltac:(lia) Hno n cv spec).
    + apply elem_of_cons in Hin as [?|Hin]; [done|].
      by apply (IH s' ltac:(lia) Hno n cv spec).
Qed.

Lemma mentions_needs_expanding (s a : string) :
  mentions s a → Format.needs_expanding s = true.
Proof.
  intros Hm. destruct (Format.needs_expanding s) eqn:Hno; [done|]. exfalso.
  destruct Hm as [s n cv spec Hin | s n cv spec a Hin _];
    by apply (markup_text_no_field (String.length s) s (le_n _) Hno n cv spec).
Qed.

Section FormatterProperties.

Context `{Format.Runtime}.

Lemma render_field_unknown name week expand n cv spec :
  Format.arg_name n ≠ "name" → Format.arg_name n ≠ "week" →
  raises (Format.render_field name week expand n cv spec).
Proof.
  intros Hn Hw. unfold Format.render_field, Format.arg_name in *.
  destruct (Format.split_field_name n) as [first path]. simpl in *.
  apply raises_bind. by apply get_argument_unknown.
Qed.

Lemma render_field_spec_raises name week expand n cv spec :
  Format.needs_expanding spec = true → raises (expand spec) →
  raises (Format.render_field name week expand n cv spec).
Proof.
  intros Hneeds Hexp. unfold Format.render_field.
  destruct (Format.split_field_name n) as [first path].
  apply raises_bind_cont. intros v.
  apply raises_bind_cont. intros o.
  apply raises_bind_cont. intros o'.
  rewrite Hneeds. by apply raises_bind.
Qed.

Lemma render_tokens_raises name week expand ts n cv spec :
  Format.Field n cv spec ∈ ts →
  raises (Format.render_field name week expand n cv spec) →
  raises (Format.render_tokens name week expand ts).
Proof.
  intros Hin Hr. induction ts as [|t ts IH]; [by apply elem_of_nil in Hin|].
  apply elem_of_cons in Hin as [<-|Hin].
  - simpl. by apply raises_bind.
  - specialize (IH Hin). destruct t as [c|n' cv' spec'|]; simpl.
    + destruct IH as [e ->]. by exists e.
    + apply raises_bind_cont. intros piece. by apply raises_bind.
    + by eexists.
Qed.

Lemma build_string_unknown name week depth :
  ∀ s a, mentions s a → a ≠ "name" → a ≠ "week" →
         raises (Format.build_string name week depth s).
Proof.
  induction depth as [|d IH]; intros s a Hm Hn Hw; [by eexists|].
  simpl. destruct Hm as [s n cv spec Hin | s n cv spec a Hin Hspec].
  - eapply render_tokens_raises; [exact Hin|]. by apply render_field_unknown.
  - eapply render_tokens_raises; [exact Hin|].
    apply render_field_spec_raises; [by eapply mentions_needs_expanding|].
    by eapply IH.
Qed.

Lemma format_message_uses template name W special :
  format_message template name W special
  = get_week_number W ≫= λ n, str_format (template_used template special) name n.
Proof.
  unfold format_message, template_used.
  destruct (get_week_number W); rsimpl; [|done].
  destruct special as [sp|]; [|done]. by destruct (Py.truthy sp).
Qed.

(** Claim C8, as amended. If the template that is formatted (the special
    message when it is given and not empty, the template argument
    otherwise) refers, in a replacement field or in a field inside a format
    spec, to an argument other than [name] and [week], then
    [format_message] raises; it returns no string. This holds whatever the
    runtime does with attribute access, conversions and format specs. A
    template argument that is not the one formatted is never read. *)
Theorem unknown_placeholder_raises
    (template name W : string) (special : option string) (a : string) :
  mentions (template_used template special) a →
  a ≠ "name" →
  a ≠ "week" →
  raises (format_message template name W special) ∧
  ¬ returns (format_message template name W special).
Proof.
  intros Hm Hn Hw.
  assert (Hr : raises (format_message template name W special)).
  { rewrite format_message_uses. apply raises_bind_cont. intros n.
    by apply (build_string_unknown name n 2 _ a). }
  split; [done|]. destruct Hr as [e He]. intros [r Hr]. congruence.
Qed.

End FormatterProperties.

(** Claim C8 as stated fails for a template argument that is not the one
    formatted: the template refers to [foo], yet with a special message the
    call returns a string. *)
Lemma unknown_placeholder_in_unused_template :
  mentions "T {foo}" "foo" ∧
  "foo" ≠ "name" ∧ "foo" ≠ "week" ∧
  Plain.format_message "T {foo}" "A" "2025-W33" (Some "S {name}") = Ok "S A".
Proof.
  repeat apply conj; try discriminate.
  - apply (mentions_field "T {foo}" "foo" None ""). by_decide.
  - vm_compute. reflexivity.
Qed.

Lemma unknown_placeholder_raises_witness :
  raises (Plain.format_message "Week {week}: {nam}" "Adrian" "2025-W33" None) ∧
  raises (Plain.format_message "Week {week}: {name}" "Adrian" "2025-W33"
            (Some "Special {0}")) ∧
  raises (Plain.format_message "Week {week:{width}}" "Adrian" "2025-W33" None).
Proof.
  repeat apply conj.
  - apply (unknown_placeholder_raises (H := Plain.runtime)
             "Week {week}: {nam}" "Adrian" "2025-W33" None "nam").
    + apply (mentions_field "Week {week}: {nam}" "nam" None ""). by_decide.
    + discriminate.
    + discriminate.
  - apply (unknown_placeholder_raises (H := Plain.runtime)
             "Week {week}: {name}" "Adrian" "2025-W33" (Some "Special {0}") "0").
    + apply (mentions_field "Special {0}" "0" None ""). by_decide.
    + discriminate.
    + discriminate.
  - apply (unknown_placeholder_raises (H := Plain.runtime)
             "Week {week:{width}}" "Adrian" "2025-W33" None "width").
    + apply (mentions_nested "Week {week:{width}}" "week" None "{width}" "width").
      * by_decide.
      * apply (mentions_field "{width}" "width" None ""). by_decide.
    + discriminate.
    + discriminate.
Defined.

Section Substitution.

Context `{Format.Runtime}.

Variable name : string.
Variable week : Z.
Variable expand : string → result string.

Lemma render_text (s rest : string) :
  Template.brace_free s = true →
  Format.render_tokens name week expand (Format.markup Format.InText (s +:+ rest))
  = (λ r, s +:+ r) <$> Format.render_tokens name week expand (Format.markup Format.InText rest).
Proof.
  induction s as [|c s IH]; intros Hfree.
  - simpl. destruct (Format.render_tokens _ _ _ _); reflexivity.
  - simpl in Hfree. apply andb_true_iff in Hfree as [Hc Hfree].
    apply andb_true_iff in Hc as [Hopen Hclose].
    apply negb_true_iff in Hopen, Hclose.
    change (String c s +:+ rest) with (String c (s +:+ rest)).
    cbn [Format.markup]. rewrite Hopen, Hclose.
    cbn [Format.render_tokens]. rewrite (IH Hfree).
    destruct (Format.render_tokens name week expand (Format.markup Format.InText rest));
      reflexivity.
Qed.

Lemma render_pieces (ps : list Template.piece) :
  Template.well_formed ps = true →
  Format.render_tokens name week expand (Format.markup Format.InText (Template.source ps))
  = Ok (Template.filled name week ps).
Proof.
  induction ps as [|p ps IH]; intros Hwf; [done|].
  simpl in Hwf. apply andb_true_iff in Hwf as [Hp Hwf]. specialize (IH Hwf).
  destruct p as [s| | | |]; cbn [Template.source Template.source_of_piece
                                  Template.filled Template.fill_piece].
  - rewrite (render_text _ _ Hp), IH. done.
  - change ("{{" +:+ ?r) with (String "{" (String "{" r)).
    cbn [Format.markup Ascii.eqb Bool.eqb]. cbn [Format.render_tokens]. by rewrite IH.
  - change ("}}" +:+ ?r) with (String "}" (String "}" r)).
    cbn [Format.markup Ascii.eqb Bool.eqb]. cbn [Format.render_tokens]. by rewrite IH.
  - change (Format.markup Format.InText ("{name}" +:+ Template.source ps))
      with (Format.Field "name" None "" :: Format.markup Format.InText (Template.source ps)).
    cbn [Format.render_tokens]. rewrite IH. reflexivity.
  - change (Format.markup Format.InText ("{week}" +:+ Template.source ps))
      with (Format.Field "week" None "" :: Format.markup Format.InText (Template.source ps)).
    cbn [Format.render_tokens]. rewrite IH. reflexivity.
Qed.

End Substitution.

Section FormatMessageProperties.

Context `{Format.Runtime}.

(** Claim C7, as amended. For a template made of text, doubled braces and
    the placeholders [{name}] and [{week}], [format_message] returns the
    template with the person in place of [{name}] and, in place of
    [{week}], the integer read after [-W] in the week string. A special
    message that is given and not empty is used as the template in place of
    the default one; without a special message, or with an empty one, the
    default template is used. *)
Theorem format_message_fills_placeholders
    (ps : list Template.piece) (template name W : string) (n : Z) :
  Template.well_formed ps = true →
  get_week_number W = Ok n →
  format_message (Template.source ps) name W None = Ok (Template.filled name n ps) ∧
  format_message (Template.source ps) name W (Some "") = Ok (Template.filled name n ps) ∧
  (Template.source ps ≠ "" →
   format_message template name W (Some (Template.source ps))
   = Ok (Template.filled name n ps)).
Proof.
  intros Hwf Hweek.
  assert (Hfmt : str_format (Template.source ps) name n = Ok (Template.filled name n ps)).
  { unfold str_format, Format.format. cbn [Format.build_string]. by apply render_pieces. }
  rewrite !format_message_uses, Hweek. rsimpl. repeat apply conj; [done | done |].
  intros Hne. unfold template_used.
  by rewrite (proj2 (truthy_nonempty _) Hne).
Qed.

End FormatMessageProperties.

Lemma format_message_fills_placeholders_witness :
  Plain.format_message "Week {week}: {name}" "Adrian" "2025-W33" None
    = Ok "Week 33: Adrian" ∧
  Plain.format_message "Regular: {name} for week {week}" "Chema" "2025-W52"
    (Some "Special: {name} on week {week}!")
    = Ok "Special: Chema on week 52!".
Proof.
  split.
  - apply (proj1 (format_message_fills_placeholders (H := Plain.runtime)
                    [Template.Text "Week "; Template.WeekField;
                     Template.Text ": "; Template.NameField]
                    "" "Adrian" "2025-W33" 33 eq_refl eq_refl)).
  - apply (proj2 (proj2 (format_message_fills_placeholders (H := Plain.runtime)
                    [Template.Text "Special: "; Template.NameField;
                     Template.Text " on week "; Template.WeekField; Template.Text "!"]
                    "Regular: {name} for week {week}" "Chema" "2025-W52" 52
                    eq_refl eq_refl))).
    discriminate.
Defined.

(** Claim C7 as stated fails for an empty special message: it is given for
    the week, and as a template it would format to the empty string, yet the
    default template is the one formatted. *)
Lemma empty_special_message_not_used :
  Plain.format_message "Week {week}: {name}" "Adrian" "2025-W33" (Some "")
    = Ok "Week 33: Adrian" ∧
  Plain.str_format "" "Adrian" 33 = Ok "".
Proof. split; vm_compute; reflexivity. Qed.

(** * Decimal numerals: what the code writes, it reads back *)

Lemma pretty_N_char_digit (d : N) :
  (d < 10)%N →
  Py.isdigit (pretty_N_char d) = true ∧ Py.digit_value (pretty_N_char d) = Z.of_N d.
Proof.
  intros Hd.
  assert (d = 0 ∨ d = 1 ∨ d = 2 ∨ d = 3 ∨ d = 4 ∨ d = 5 ∨ d = 6 ∨ d = 7 ∨ d = 8 ∨ d = 9)%N
    as Hcases by lia.
  repeat (destruct Hcases as [->|Hcases]; [by vm_compute|]). subst d. by vm_compute.
Qed.

Lemma string_app_cons (x : ascii) (a b : string) :
  String x a +:+ b = String x (a +:+ b).
Proof. reflexivity. Qed.

Lemma string_app_assoc (a b c : string) : (a +:+ b) +:+ c = a +:+ (b +:+ c).
Proof. induction a as [|x a IH]; [done|]. by rewrite !string_app_cons, IH. Qed.

Lemma string_app_length (a b : string) :
  String.length (a +:+ b) = (String.length a + String.length b)%nat.
Proof.
  induction a as [|x a IH]; [done|].
  rewrite string_app_cons. cbn [String.length]. by rewrite IH.
Qed.

Lemma string_app_empty_r (a : string) : a +:+ "" = a.
Proof. induction a as [|x a IH]; [done|]. by rewrite string_app_cons, IH. Qed.

Lemma pretty_N_go_app (x : N) :
  ∀ s, pretty_N_go x s = pretty_N_go x "" +:+ s.
Proof.
  induction (N.lt_wf_0 x) as [x _ IH]; intros s.
  destruct (decide (x = 0)%N) as [->|Hx]; [by rewrite !pretty_N_go_0|].
  rewrite !(pretty_N_go_step x) by lia.
  rewrite (IH (x `div` 10)%N) by (apply N.div_lt; lia).
  rewrite (IH (x `div` 10)%N ltac:(apply N.div_lt; lia) (String _ "")).
  by rewrite string_app_assoc.
Qed.

Lemma pretty_N_go_last (x : N) :
  (0 < x)%N →
  pretty_N_go x ""
  = pretty_N_go (x `div` 10) "" +:+ String (pretty_N_char (x `mod` 10)) "".
Proof. intros Hx. rewrite pretty_N_go_step by done. apply pretty_N_go_app. Qed.

Lemma all_digits_app (a b : string) :
  Format.all_digits (a +:+ b) = Format.all_digits a && Format.all_digits b.
Proof.
  induction a as [|x a IH]; [done|].
  rewrite string_app_cons. cbn [Format.all_digits]. rewrite IH. by rewrite andb_assoc.
Qed.

Lemma decimal_value_app (a b : string) :
  ∀ acc, Format.decimal_value acc (a +:+ b)
         = Format.decimal_value (Format.decimal_value acc a) b.
Proof.
  induction a as [|x a IH]; intros acc; [done|].
  rewrite string_app_cons. cbn [Format.decimal_value]. apply IH.
Qed.

(** The numeral of a natural number: digits only, of the right value, and
    no longer than the number of digits its size allows. *)
Lemma pretty_N_go_numeral (x : N) :
  Format.all_digits (pretty_N_go x "") = true ∧
  Format.decimal_value 0 (pretty_N_go x "") = Z.of_N x ∧
  (∀ k : nat, (x < 10 ^ N.of_nat k)%N → (String.length (pretty_N_go x "") ≤ k)%nat) ∧
  ((0 < x)%N → pretty_N_go x "" ≠ "").
Proof.
  induction (N.lt_wf_0 x) as [x _ IH].
  destruct (decide (x = 0)%N) as [->|Hx].
  { rewrite pretty_N_go_0. repeat apply conj; [done | done | intros; simpl; lia | lia]. }
  assert (Hlt : (x `div` 10 < x)%N) by (apply N.div_lt; lia).
  destruct (IH _ Hlt) as (Hall & Hval & Hlen & _).
  destruct (pretty_N_char_digit (x `mod` 10)) as [Hd Hv]; [by apply N.mod_lt|].
  rewrite pretty_N_go_last by lia. repeat apply conj.
  - rewrite all_digits_app, Hall. cbn [Format.all_digits]. by rewrite Hd.
  - rewrite decimal_value_app, Hval. cbn [Format.decimal_value]. rewrite Hv.
    rewrite (N.div_mod x 10) at 3 by done. lia.
  - intros k Hk. rewrite string_app_length. cbn [String.length].
    destruct k as [|k].
    + simpl in Hk. lia.
    + assert (String.length (pretty_N_go (x `div` 10) "") ≤ k)%nat; [|lia].
      apply Hlen. apply N.Div0.div_lt_upper_bound.
      replace (N.of_nat (S k)) with (N.succ (N.of_nat k)) in Hk by lia.
      by rewrite N.pow_succ_r' in Hk.
  - intros _. by destruct (pretty_N_go (x `div` 10) "").
Qed.

Lemma int_of_negative (body : string) :
  Format.all_digits body = true → body ≠ "" →
  (String.length body ≤ Py.int_max_str_digits)%nat →
  Py.int (String "-" body) = Ok (- Format.decimal_value 0 body).
Proof.
  intros Hall Hne Hlen. destruct body as [|c body]; [done|].
  pose proof Hall as Hall'. cbn [Format.all_digits] in Hall'.
  apply andb_true_iff in Hall' as [Hc _].
  destruct (digit_not_blank_or_sign c Hc) as (_ & _ & _ & Hus).
  unfold Py.int.
  change (Py.skip_spaces (String "-" (String c body))) with (String "-" (String c body)).
  change (Py.read_sign (String "-" (String c body))) with (-1, String c body).
  cbn [Py.starts_with_underscore]. rewrite Hus.
  rewrite (scan_all_digits _ 0 0%nat Hall). rewrite Nat.add_0_l.
  rewrite (proj2 (Nat.ltb_ge _ _) Hlen). cbn [String.length Nat.eqb Py.skip_spaces].
  f_equal; lia.
Qed.

Lemma pretty_N_length_limit (x : N) :
  Z.of_N x < int_limit →
  (String.length (pretty_N_go x "") ≤ Py.int_max_str_digits)%nat.
Proof.
  intros Hx. apply (pretty_N_go_numeral x). unfold int_limit in Hx.
  apply N2Z.inj_lt. rewrite N2Z.inj_pow. by rewrite nat_N_Z.
Qed.

(** [int(str(n)) == n] *)
Lemma int_pretty (n : Z) : - int_limit < n < int_limit → Py.int (pretty n) = Ok n.
Proof.
  intros Hn. destruct n as [|p|p].
  - reflexivity.
  - change (pretty (Z.pos p)) with (pretty_N_go (N.pos p) "").
    destruct (pretty_N_go_numeral (N.pos p)) as (Hall & Hval & _ & Hne).
    rewrite int_of_digits; [by rewrite Hval | done | by apply Hne |].
    apply pretty_N_length_limit. simpl. lia.
  - change (pretty (Z.neg p)) with (String "-" (pretty_N_go (N.pos p) "")).
    destruct (pretty_N_go_numeral (N.pos p)) as (Hall & Hval & _ & Hne).
    rewrite int_of_negative; [by rewrite Hval | done | by apply Hne |].
    apply pretty_N_length_limit. simpl. lia.
Qed.

Lemma int_limit_large : 100000 < int_limit.
Proof.
  unfold int_limit.
  apply Z.lt_le_trans with (10 ^ 6); [done|].
  apply Z.pow_le_mono_r; [done|]. apply Nat2Z.inj_le with (n := 6%nat).
  apply Nat.leb_le. by vm_compute.
Qed.

(** [int(format(n, "02d")) == n] *)
Lemma int_format_02d (n : Z) :
  - int_limit < n < int_limit → Py.int (format_02d n) = Ok n.
Proof.
  intros Hn. unfold format_02d.
  destruct ((0 <=? n) && (n <? 10)) eqn:Hsmall; [|by apply int_pretty].
  apply andb_true_iff in Hsmall as [Hlo Hhi].
  apply Z.leb_le in Hlo. apply Z.ltb_lt in Hhi.
  assert (n = 0 ∨ n = 1 ∨ n = 2 ∨ n = 3 ∨ n = 4 ∨ n = 5 ∨ n = 6 ∨ n = 7 ∨ n = 8 ∨ n = 9)
    as Hcases by lia.
  repeat (destruct Hcases as [->|Hcases]; [by vm_compute|]). subst n. by vm_compute.
Qed.

Lemma scan_digits_bound (s : string) :
  ∀ prev acc d v d' rest,
    Py.scan_digits s prev acc d = Some (v, d', rest) →
    0 ≤ acc < 10 ^ Z.of_nat d →
    0 ≤ v < 10 ^ Z.of_nat d'.
Proof.
  induction s as [|c s IH]; intros prev acc d v d' rest Hscan Hacc; simpl in Hscan.
  - destruct prev; [discriminate|]. by injection Hscan as <- <- _.
  - destruct (Py.isdigit c) eqn:Hc.
    + apply (IH _ _ _ _ _ _ Hscan).
      unfold Py.isdigit in Hc. apply andb_true_iff in Hc as [Hlo Hhi].
      apply Z.leb_le in Hlo, Hhi. unfold Py.digit_value.
      rewrite Nat2Z.inj_succ, Z.pow_succ_r by lia. lia.
    + destruct (Ascii.eqb c "_").
      * destruct prev; [discriminate|]. by apply (IH _ _ _ _ _ _ Hscan).
      * destruct prev; [discriminate|]. by injection Hscan as <- <- _.
Qed.

(** What [int] returns is within the digit limit. *)
Lemma int_within_limit (s : string) (n : Z) :
  Py.int s = Ok n → - int_limit < n < int_limit.
Proof.
  unfold Py.int. destruct (Py.read_sign _) as [sign body] eqn:Hsign.
  destruct (Py.starts_with_underscore body); [discriminate|].
  destruct (Py.scan_digits _ _ _ _) as [[[v digits] rest]|] eqn:Hscan; [|discriminate].
  destruct (_ =? _)%nat; [discriminate|].
  destruct (_ <? _)%nat eqn:Hmax; [discriminate|].
  destruct (Py.skip_spaces rest); [|discriminate].
  intros [= <-].
  apply Nat.ltb_ge in Hmax.
  assert (Hv : 0 ≤ v < 10 ^ Z.of_nat digits).
  { apply (scan_digits_bound _ _ _ _ _ _ _ Hscan). simpl. lia. }
  assert (Hpow : 10 ^ Z.of_nat digits ≤ int_limit).
  { unfold int_limit. apply Z.pow_le_mono_r; lia. }
  assert (Hs : sign = 1 ∨ sign = -1).
  { unfold Py.read_sign in Hsign. destruct (Py.skip_spaces s) as [|c s']; [left; congruence|].
    destruct (Ascii.eqb c "+"); [left; congruence|].
    destruct (Ascii.eqb c "-"); [right; congruence | left; congruence]. }
  destruct Hs as [-> | ->]; lia.
Qed.

Lemma pretty_numeral (n : Z) : numeral (pretty n).
Proof.
  destruct n as [|p|p].
  - by left.
  - left. change (pretty (Z.pos p)) with (pretty_N_go (N.pos p) "").
    destruct (pretty_N_go_numeral (N.pos p)) as (Hall & _ & _ & Hne).
    split; [done | by apply Hne].
  - right. exists (pretty_N_go (N.pos p) "").
    destruct (pretty_N_go_numeral (N.pos p)) as (Hall & _ & _ & Hne).
    split; [done|]. split; [done | by apply Hne].
Qed.

Lemma pretty_nonnegative_digits (n : Z) :
  0 ≤ n → Format.all_digits (pretty n) = true.
Proof.
  intros Hn. destruct n as [|p|p]; [done| |lia].
  change (pretty (Z.pos p)) with (pretty_N_go (N.pos p) "").
  apply (pretty_N_go_numeral (N.pos p)).
Qed.

Lemma format_02d_numeral (n : Z) : numeral (format_02d n).
Proof.
  unfold format_02d. destruct ((0 <=? n) && (n <? 10)) eqn:Hsmall; [|apply pretty_numeral].
  left. split; [|done]. cbn [Format.all_digits].
  apply andb_true_iff in Hsmall as [Hlo _]. apply Z.leb_le in Hlo.
  by rewrite pretty_nonnegative_digits.
Qed.

Lemma split_digits (ds : string) :
  Format.all_digits ds = true →
  ∀ cur rest, Py.split_dash_w_from cur (ds +:+ rest) = Py.split_dash_w_from (cur +:+ ds) rest.
Proof.
  induction ds as [|c ds IH]; intros Hall cur rest.
  - by rewrite string_app_empty_r.
  - cbn [Format.all_digits] in Hall. apply andb_true_iff in Hall as [Hc Hall].
    rewrite string_app_cons, split_digit by done.
    rewrite (IH Hall). by rewrite string_app_assoc.
Qed.

Lemma split_minus_digit (c : ascii) (cur s : string) :
  Py.isdigit c = true →
  Py.split_dash_w_from cur (String "-" (String c s))
  = Py.split_dash_w_from (cur +:+ "-") (String c s).
Proof.
  intros Hc. destruct c as [[] [] [] [] [] [] [] []];
    try (vm_compute in Hc; discriminate Hc); reflexivity.
Qed.

(** A numeral holds no separator: it is one piece. *)
Lemma split_numeral (s : string) :
  numeral s → ∀ cur, Py.split_dash_w_from cur s = [cur +:+ s].
Proof.
  intros [[Hall _]|(body & -> & Hall & Hne)] cur.
  - rewrite <- (string_app_empty_r s) at 1. by rewrite split_digits.
  - destruct body as [|c body]; [done|].
    pose proof Hall as Hall'. cbn [Format.all_digits] in Hall'.
    apply andb_true_iff in Hall' as [Hc _].
    rewrite split_minus_digit by done.
    rewrite <- (string_app_empty_r (String c body)) at 1.
    rewrite split_digits by done. cbn [Py.split_dash_w_from].
    by rewrite string_app_assoc.
Qed.

Lemma split_week_string (y w : Z) :
  0 ≤ y → Py.split_dash_w (week_string y w) = [pretty y; format_02d w].
Proof.
  intros Hy. unfold Py.split_dash_w, week_string.
  rewrite split_digits by (by apply pretty_nonnegative_digits).
  change ("-W" +:+ format_02d w) with (String "-" (String "W" (format_02d w))).
  rewrite split_separator. by rewrite (split_numeral _ (format_02d_numeral w)).
Qed.

Lemma week_string_pair (y w : Z) :
  0 ≤ y < int_limit → - int_limit < w < int_limit →
  year_and_week (week_string y w) = Ok (y, w).
Proof.
  intros Hy Hw. unfold year_and_week. rewrite split_week_string by lia.
  rewrite int_pretty by lia. rsimpl. by rewrite int_format_02d.
Qed.

Ltac below_limit :=
  pose proof int_limit_large; lia.

Lemma week_string_readers (y w : Z) :
  0 ≤ y < int_limit →
  - int_limit < w < int_limit →
  get_week_number (week_string y w) = Ok w ∧
  get_total_weeks_since_epoch (week_string y w) = Ok ((y - 2000) * 52 + w).
Proof.
  intros Hy Hw. split.
  - unfold get_week_number. rewrite split_week_string by lia. by apply int_format_02d.
  - by rewrite total_weeks_of_pair, week_string_pair.
Qed.

(** * More on week strings *)

(** The week string the code writes for a year and a week is read back by
    both readers: the week number is the week, the week count is the linear
    count of the pair. This holds for every year from 0 on and every week,
    negative ones included, within the digit limit of [int]. *)
Theorem week_string_read_back (y w : Z) :
  0 ≤ y < int_limit →
  - int_limit < w < int_limit →
  get_week_number (week_string y w) = Ok w ∧
  get_total_weeks_since_epoch (week_string y w) = Ok ((y - 2000) * 52 + w).
Proof. apply week_string_readers. Qed.

Lemma week_string_read_back_witness :
  get_week_number (week_string 2025 7) = Ok 7 ∧
  get_total_weeks_since_epoch (week_string 2025 7) = Ok ((2025 - 2000) * 52 + 7).
Proof. apply week_string_read_back; below_limit. Defined.

Lemma pretty_N_length_lower (x : N) :
  ∀ k : nat, (10 ^ N.of_nat k ≤ x)%N → (k < String.length (pretty_N_go x ""))%nat.
Proof.
  induction (N.lt_wf_0 x) as [x _ IH]; intros k Hk.
  assert (Hpos : (0 < x)%N).
  { pose proof (N.pow_nonzero 10 (N.of_nat k)). lia. }
  rewrite pretty_N_go_last, string_app_length by done. cbn [String.length].
  destruct k as [|k]; [lia|].
  assert (k < String.length (pretty_N_go (x `div` 10) ""))%nat; [|lia].
  apply IH; [apply N.div_lt; lia|].
  replace (N.of_nat (S k)) with (N.succ (N.of_nat k)) in Hk by lia.
  rewrite N.pow_succ_r' in Hk.
  apply N.div_le_lower_bound; [done|]. lia.
Qed.

Lemma pretty_length (n : Z) (k : nat) :
  10 ^ Z.of_nat k ≤ n < 10 ^ Z.of_nat (S k) → String.length (pretty n) = S k.
Proof.
  intros [Hlo Hhi].
  assert (0 < n) by (pose proof (Z.pow_pos_nonneg 10 (Z.of_nat k)); lia).
  destruct n as [|p|p]; [lia| |lia].
  change (pretty (Z.pos p)) with (pretty_N_go (N.pos p) "").
  assert (String.length (pretty_N_go (N.pos p) "") ≤ S k)%nat.
  { apply (pretty_N_go_numeral (N.pos p)). apply N2Z.inj_lt.
    rewrite N2Z.inj_pow, nat_N_Z. exact Hhi. }
  assert (k < String.length (pretty_N_go (N.pos p) ""))%nat; [|lia].
  apply pretty_N_length_lower. apply N2Z.inj_le.
  rewrite N2Z.inj_pow, nat_N_Z. exact Hlo.
Qed.

Lemma iso_shape_of_digits (a b : string) :
  Format.all_digits a = true → String.length a = 4%nat →
  Format.all_digits b = true → String.length b = 2%nat →
  iso_shape (a +:+ "-W" +:+ b) = true.
Proof.
  intros Ha La Hb Lb.
  destruct a as [|a1 [|a2 [|a3 [|a4 [|? ?]]]]]; try discriminate La.
  destruct b as [|b1 [|b2 [|? ?]]]; try discriminate Lb.
  cbn [Format.all_digits] in Ha, Hb. rewrite !andb_true_r in Ha, Hb.
  apply andb_true_iff in Ha as [Ha1 Ha]. apply andb_true_iff in Ha as [Ha2 Ha].
  apply andb_true_iff in Ha as [Ha3 Ha4]. apply andb_true_iff in Hb as [Hb1 Hb2].
  change (iso_shape (String a1 (String a2 (String a3 (String a4
            (String "-" (String "W" (String b1 (String b2 "")))))))) = true).
  cbn [iso_shape]. by rewrite Ha1, Ha2, Ha3, Ha4, Hb1, Hb2.
Qed.

Lemma format_02d_two_digits (w : Z) :
  0 ≤ w ≤ 99 →
  Format.all_digits (format_02d w) = true ∧ String.length (format_02d w) = 2%nat.
Proof.
  intros Hw. unfold format_02d.
  destruct ((0 <=? w) && (w <? 10)) eqn:Hsmall.
  - apply andb_true_iff in Hsmall as [_ Hhi]. apply Z.ltb_lt in Hhi.
    cbn [Format.all_digits String.length].
    rewrite pretty_nonnegative_digits by lia. split; [done|].
    destruct (decide (w = 0)) as [->|Hnz]; [done|].
    by rewrite (pretty_length w 0) by (simpl; lia).
  - apply andb_false_iff in Hsmall as [Hlo|Hhi]; [apply Z.leb_gt in Hlo; lia|].
    apply Z.ltb_ge in Hhi.
    rewrite pretty_nonnegative_digits by lia. split; [done|].
    apply (pretty_length w 1). simpl. lia.
Qed.

(** A week string written for a four-digit year and a week of at most two
    digits has the shape YYYY-W##. *)
Lemma week_string_shape (y w : Z) :
  1000 ≤ y ≤ 9999 → 0 ≤ w ≤ 99 → iso_shape (week_string y w) = true.
Proof.
  intros Hy Hw. unfold week_string.
  destruct (format_02d_two_digits w Hw) as [Hb Lb].
  apply iso_shape_of_digits; [|apply (pretty_length y 3); simpl; lia|done..].
  apply pretty_nonnegative_digits. lia.
Qed.

(** The week string of the current week, for any reading of the calendar
    (years 1 to 9999, weeks 1 to 53), is read back by both readers as the
    week and the linear count of that reading; from year 1000 on it has the
    shape YYYY-W##. When the clock fails, so does the function. *)
Theorem current_week_read_back
    (now_isocalendar : string → result (Z * Z * Z)) (timezone : string) (y w d : Z) :
  now_isocalendar timezone = Ok (y, w, d) →
  1 ≤ y ≤ 9999 →
  1 ≤ w ≤ 53 →
  ∃ W, get_current_week_string now_isocalendar timezone = Ok W ∧
       get_week_number W = Ok w ∧
       get_total_weeks_since_epoch W = Ok ((y - 2000) * 52 + w) ∧
       (1000 ≤ y → iso_shape W = true).
Proof.
  intros Hnow Hy Hw. exists (week_string y w).
  unfold get_current_week_string. rewrite Hnow. rsimpl.
  split; [done|].
  destruct (week_string_readers y w) as [Hnum Htotal]; [below_limit..|].
  split; [done|]. split; [done|].
  intros Hy'. apply week_string_shape; lia.
Qed.

Lemma current_week_read_back_witness :
  ∃ W, get_current_week_string (λ _, Ok (2026, 53, 4)) "America/Mexico_City" = Ok W ∧
       get_week_number W = Ok 53 ∧
       get_total_weeks_since_epoch W = Ok ((2026 - 2000) * 52 + 53) ∧
       (1000 ≤ 2026 → iso_shape W = true).
Proof.
  apply (current_week_read_back (λ _, Ok (2026, 53, 4)) "America/Mexico_City" 2026 53 4).
  - reflexivity.
  - lia.
  - lia.
Defined.

(** [get_force_week] never raises. It gives no week exactly when
    FORCE_WEEK is unset, empty or not an integer literal; otherwise the week
    string it gives is read back by both readers as the integer that
    FORCE_WEEK holds, in the year 2025, negative and many-digit values
    included. *)
Theorem force_week_read_back (environ : gmap string string) :
  (Config.get_force_week environ = Ok None ↔
     ∀ v, environ !! "FORCE_WEEK" = Some v → raises (Py.int v)) ∧
  (∀ v n, environ !! "FORCE_WEEK" = Some v → Py.int v = Ok n →
     Config.get_force_week environ = Ok (Some (week_string 2025 n)) ∧
     get_week_number (week_string 2025 n) = Ok n ∧
     get_total_weeks_since_epoch (week_string 2025 n) = Ok ((2025 - 2000) * 52 + n)).
Proof.
  assert (Hsome : ∀ v n, environ !! "FORCE_WEEK" = Some v → Py.int v = Ok n →
                    Config.get_force_week environ = Ok (Some (week_string 2025 n))).
  { intros v n Hv Hn. unfold Config.get_force_week. rewrite Hv.
    destruct v as [|c v]; [discriminate Hn|]. cbn [Py.truthy]. by rewrite Hn. }
  split.
  - split.
    + intros Hnone v Hv. destruct (Py.int v) as [n|e] eqn:Hn; [|by exists e].
      rewrite (Hsome v n Hv Hn) in Hnone. discriminate.
    + intros Hbad. unfold Config.get_force_week.
      destruct (environ !! "FORCE_WEEK") as [v|]; [|done].
      destruct (Py.truthy v); [|done].
      destruct (Hbad v eq_refl) as [e He]. rewrite He.
      by rewrite (int_raises_value_error _ _ He).
  - intros v n Hv Hn. split; [by apply (Hsome v)|].
    pose proof (int_within_limit v n Hn).
    apply week_string_readers; [below_limit | done].
Qed.

Lemma force_week_read_back_witness :
  Config.get_force_week {[ "FORCE_WEEK" := " -3 " ]} = Ok (Some "2025-W-3") ∧
  get_week_number "2025-W-3" = Ok (-3) ∧
  get_total_weeks_since_epoch "2025-W-3" = Ok ((2025 - 2000) * 52 + -3).
Proof.
  apply (proj2 (force_week_read_back {[ "FORCE_WEEK" := " -3 " ]}) " -3 " (-3)).
  - reflexivity.
  - reflexivity.
Defined.

(** Whenever the week count of a string is computed, its week number is
    too, and the count is the linear count of some year with that week
    number. The converse fails: the week number only looks at the piece
    after the first separator. *)
Theorem week_number_of_counted_week (W : string) (t : Z) :
  get_total_weeks_since_epoch W = Ok t →
  ∃ y w, year_and_week W = Ok (y, w) ∧
         get_week_number W = Ok w ∧
         t = (y - 2000) * 52 + w.
Proof.
  intros Ht. unfold get_total_weeks_since_epoch, year_and_week, get_week_number in *.
  destruct (Py.split_dash_w W) as [|ys [|ws [|? ?]]]; try discriminate Ht.
  destruct (Py.int ys) as [y|]; [|discriminate Ht]. rsimpl.
  destruct (Py.int ws) as [w|]; [|discriminate Ht]. rsimpl.
  injection Ht as <-. by exists y, w.
Qed.

Lemma week_number_of_counted_week_witness :
  ∃ y w, year_and_week "2025-W31" = Ok (y, w) ∧
         get_week_number "2025-W31" = Ok w ∧
         1331 = (y - 2000) * 52 + w.
Proof. apply (week_number_of_counted_week "2025-W31" 1331). reflexivity. Defined.

Lemma rotation_branch_same_count W W' s y w y' w' :
  year_and_week W = Ok (y, w) →
  year_and_week W' = Ok (y', w') →
  total_weeks y w = total_weeks y' w' →
  rotation_branch W s = rotation_branch W' s.
Proof.
  intros HW HW' Heq. unfold rotation_branch.
  rewrite !total_weeks_of_pair, HW, HW'. rsimpl. by rewrite Heq.
Qed.

(** Week 53 of a year and week 1 of the next year have the same linear
    count, so without a vacation coverage or an override the resolver gives
    both the same outcome. *)
Theorem week_53_is_week_1_of_next_year (W W' : string) (s : schedule) (y : Z) :
  year_and_week W = Ok (y, 53) →
  year_and_week W' = Ok (y + 1, 1) →
  no_coverage W s → no_coverage W' s →
  schedule_overrides s !! W = None → schedule_overrides s !! W' = None →
  get_total_weeks_since_epoch W = get_total_weeks_since_epoch W' ∧
  fst <$> get_responsible_person W s = fst <$> get_responsible_person W' s.
Proof.
  intros HW HW' Hn Hn' Ho Ho'. split.
  - rewrite !total_weeks_of_pair, HW, HW'. rsimpl. f_equal. unfold total_weeks. lia.
  - rewrite !resolve_rotation by done.
    rewrite (rotation_branch_same_count W W' s y 53 (y + 1) 1 HW HW')
      by (unfold total_weeks; lia).
    by destruct (rotation_branch W' s).
Qed.

Lemma week_53_is_week_1_of_next_year_witness :
  get_total_weeks_since_epoch "2026-W53" = get_total_weeks_since_epoch "2027-W01" ∧
  fst <$> get_responsible_person "2026-W53" Fixtures.basic_schedule
  = fst <$> get_responsible_person "2027-W01" Fixtures.basic_schedule.
Proof.
  apply (week_53_is_week_1_of_next_year "2026-W53" "2027-W01" Fixtures.basic_schedule 2026).
  - reflexivity.
  - reflexivity.
  - constructor.
  - constructor.
  - reflexivity.
  - reflexivity.
Defined.

(** * More on the rotation *)

(** From one week to the next, in the linear count, the rotation moves on
    by one position and wraps at the end. *)
Theorem next_week_next_position (W W' : string) (s : schedule) (y w y' w' y0 w0 : Z) :
  year_and_week W = Ok (y, w) →
  year_and_week W' = Ok (y', w') →
  (y' - 2000) * 52 + w' = (y - 2000) * 52 + w + 1 →
  year_and_week (start_week s) = Ok (y0, w0) →
  default_rotation s ≠ [] →
  no_coverage W s → no_coverage W' s →
  schedule_overrides s !! W = None → schedule_overrides s !! W' = None →
  ∃ (i : nat) p p',
    default_rotation s !! i = Some p ∧
    default_rotation s !! ((i + 1) mod length (default_rotation s))%nat = Some p' ∧
    fst <$> get_responsible_person W s = Ok p ∧
    fst <$> get_responsible_person W' s = Ok p'.
Proof.
  intros HW HW' Hnext Hstart Hne Hn Hn' Ho Ho'.
  destruct (rotation_branch_index W s y w y0 w0 HW Hstart Hne) as (Hi & p & Hp & Hb).
  destruct (rotation_branch_index W' s y' w' y0 w0 HW' Hstart Hne) as (Hi' & p' & Hp' & Hb').
  set (len := Z.of_nat (length (default_rotation s))) in *.
  set (a := total_weeks y w - total_weeks y0 w0) in *.
  assert (Ha' : total_weeks y' w' - total_weeks y0 w0 = a + 1)
    by (unfold a, total_weeks; lia).
  rewrite Ha' in Hi', Hp'.
  exists (Z.to_nat (a mod len)), p, p'.
  rewrite !resolve_rotation, Hb, Hb' by done. rsimpl.
  split; [done|]. split; [|done].
  rewrite <- Hp'. f_equal.
  apply Nat2Z.inj. rewrite Nat2Z.inj_mod, Nat2Z.inj_add, !Z2Nat.id by lia.
  fold len. rewrite Z.add_mod_idemp_l by lia. done.
Qed.

Lemma next_week_next_position_witness :
  ∃ (i : nat) p p',
    Fixtures.six !! i = Some p ∧
    Fixtures.six !! ((i + 1) mod length Fixtures.six)%nat = Some p' ∧
    fst <$> get_responsible_person "2025-W52" Fixtures.basic_schedule = Ok p ∧
    fst <$> get_responsible_person "2026-W01" Fixtures.basic_schedule = Ok p'.
Proof.
  apply (next_week_next_position "2025-W52" "2026-W01" Fixtures.basic_schedule
           2025 52 2026 1 2025 31).
  - reflexivity.
  - reflexivity.
  - reflexivity.
  - reflexivity.
  - discriminate.
  - constructor.
  - constructor.
  - reflexivity.
  - reflexivity.
Defined.

(** With no name repeated in the rotation and a readable [start_week], two
    weeks less than one cycle apart are never given to the same person by
    the rotation. *)
Theorem no_repeat_within_a_cycle (W W' : string) (s : schedule) (y w y' w' : Z) :
  NoDup (default_rotation s) →
  year_and_week W = Ok (y, w) →
  year_and_week W' = Ok (y', w') →
  0 < ((y' - 2000) * 52 + w') - ((y - 2000) * 52 + w) < Z.of_nat (length (default_rotation s)) →
  returns (year_and_week (start_week s)) →
  no_coverage W s → no_coverage W' s →
  schedule_overrides s !! W = None → schedule_overrides s !! W' = None →
  fst <$> get_responsible_person W s ≠ fst <$> get_responsible_person W' s.
Proof.
  intros Hnodup HW HW' Hgap [[y0 w0] Hstart] Hn Hn' Ho Ho'.
  rewrite !resolve_rotation by done.
  assert (Hne : default_rotation s ≠ []) by (intros E; rewrite E in Hgap; simpl in Hgap; lia).
  destruct (rotation_branch_index W s y w y0 w0 HW Hstart Hne) as (Hi & q & Hq & Hb).
  destruct (rotation_branch_index W' s y' w' y0 w0 HW' Hstart Hne) as (Hi' & q' & Hq' & Hb').
  rewrite Hb, Hb'. rsimpl. intros [= <-].
  pose proof (NoDup_lookup _ _ _ _ Hnodup Hq Hq') as Hsame.
  apply Z2Nat.inj in Hsame; [|lia..].
  set (len := Z.of_nat (length (default_rotation s))) in *.
  unfold total_weeks in *.
  set (a := (y - 2000) * 52 + w - ((y0 - 2000) * 52 + w0)) in *.
  set (b := (y' - 2000) * 52 + w' - ((y0 - 2000) * 52 + w0)) in *.
  assert (Hab : 0 < b - a < len) by (unfold a, b; lia).
  pose proof (Z.div_mod a len ltac:(lia)) as Ha.
  pose proof (Z.div_mod b len ltac:(lia)) as Hb''.
  rewrite Hsame in Ha.
  assert (Hdiff : b - a = len * (b `div` len - a `div` len)) by lia.
  clearbody a b len. clear Ha Hb''.
  generalize dependent (b `div` len - a `div` len). intros k Hdiff.
  destruct (Z_le_gt_dec k 0); nia.
Qed.

Lemma no_repeat_within_a_cycle_witness :
  fst <$> get_responsible_person "2025-W32" Fixtures.basic_schedule
  ≠ fst <$> get_responsible_person "2025-W37" Fixtures.basic_schedule.
Proof.
  apply (no_repeat_within_a_cycle "2025-W32" "2025-W37" Fixtures.basic_schedule
           2025 32 2025 37).
  - by_decide.
  - reflexivity.
  - reflexivity.
  - vm_compute. split; reflexivity.
  - by_run.
  - constructor.
  - constructor.
  - reflexivity.
  - reflexivity.
Defined.

(** * More on vacation coverage *)

(** [get_vacation_coverage] never raises: the index, the modulo and the
    list access it makes are always in range. It returns [None] exactly for
    a person outside the rotation, and a coverage it returns is a member of
    the rotation. *)
Theorem coverage_is_total (person W : string) (s : schedule) :
  ∃ r, get_vacation_coverage person W s = Ok r ∧
       (r = None ↔ person ∉ default_rotation s) ∧
       (∀ c, r = Some c → c ∈ default_rotation s).
Proof.
  destruct (coverage_never_raises person W s) as [r Hr]. exists r.
  split; [done|]. split.
  - split.
    + intros -> Hin.
      destruct (index_first_occurrence _ _ Hin) as (i & _ & Hfirst).
      destruct (coverage_next person W s i Hfirst) as (c & _ & Hc). congruence.
    + intros Hout. rewrite coverage_outside_rotation in Hr by done. congruence.
  - intros c ->. by eapply coverage_in_rotation.
Qed.

(** With no name repeated in the rotation, a member is covered by somebody
    else, except when the member is alone in the rotation and covers for
    themself. *)
Theorem covers_for_oneself_only_when_alone (person W : string) (s : schedule) :
  NoDup (default_rotation s) →
  person ∈ default_rotation s →
  ∃ c, get_vacation_coverage person W s = Ok (Some c) ∧
       (c = person ↔ length (default_rotation s) = 1%nat).
Proof.
  intros Hnodup Hin.
  destruct (index_first_occurrence _ _ Hin) as (i & _ & Hfirst).
  destruct (coverage_next person W s i Hfirst) as (c & Hc & Hcov).
  exists c. split; [done|].
  destruct Hfirst as [Hi _].
  pose proof (lookup_lt_Some _ _ _ Hi) as Hlt.
  split.
  - intros ->. pose proof (NoDup_lookup _ _ _ _ Hnodup Hc Hi) as Heq.
    destruct (decide (i + 1 = length (default_rotation s))%nat) as [Hlast|Hmid].
    + rewrite Hlast, Nat.Div0.mod_same in Heq. lia.
    + rewrite Nat.mod_small in Heq by lia. lia.
  - intros Hone. rewrite Hone in *.
    assert (i = 0%nat) as -> by lia. simpl in Hc. congruence.
Qed.

Lemma covers_for_oneself_only_when_alone_witness :
  get_vacation_coverage "A" "2025-W01" (Fixtures.rotation_only ["A"] "2025-W01")
    = Ok (Some "A") ∧
  ∃ c, get_vacation_coverage "JC" "2025-W01" Fixtures.basic_schedule = Ok (Some c) ∧
       (c = "JC" ↔ length (default_rotation Fixtures.basic_schedule) = 1%nat).
Proof.
  split.
  - destruct (covers_for_oneself_only_when_alone "A" "2025-W01"
                (Fixtures.rotation_only ["A"] "2025-W01")) as (c & Hc & Hself).
    + by_decide.
    + by_decide.
    + rewrite Hc. do 2 f_equal. by apply Hself.
  - apply covers_for_oneself_only_when_alone; by_decide.
Defined.

Lemma vacation_loop_filter W s items :
  vacation_loop (filter (λ entry : string * list string, W ∈ entry.2) items) W s
  = vacation_loop items W s.
Proof.
  induction items as [|[person weeks] items IH]; [done|].
  destruct (decide (W ∈ weeks)) as [Hin|Hout].
  - rewrite filter_cons_True by done. simpl. by rewrite IH.
  - rewrite filter_cons_False by done. rewrite IH.
    symmetry. apply vacation_loop_skip. by left.
Qed.

(** Vacations in other weeks play no part: the resolver gives the same
    outcome on the dataset that keeps only the entries of [vacation_weeks]
    whose set holds the week. *)
Theorem other_weeks_vacations_ignored (W : string) (s : schedule) :
  get_responsible_person W s
  = get_responsible_person W
      (with_vacation_weeks s
         (filter (λ entry : string * list string, W ∈ entry.2) (vacation_weeks s))).
Proof.
  unfold get_responsible_person. simpl.
  by rewrite vacation_loop_other_items, vacation_loop_filter.
Qed.

Lemma vacation_loop_other_overrides W s items overrides :
  vacation_loop items W (with_overrides s overrides) = vacation_loop items W s.
Proof.
  induction items as [|[person weeks] items IH]; [done|].
  simpl. by rewrite IH.
Qed.

(** Adding or replacing an override for one week leaves every other week
    as it was, and makes that week resolve to the override unless a vacation
    coverage applies to it; the special message of the week is kept. *)
Theorem override_inserted (W W' p : string) (s : schedule) :
  let s' := with_overrides s (<[W' := p]> (schedule_overrides s)) in
  (W ≠ W' → get_responsible_person W s' = get_responsible_person W s) ∧
  (no_coverage W' s →
     get_responsible_person W' s' = Ok (p, special_messages s !! W')) ∧
  (¬ no_coverage W' s →
     get_responsible_person W' s' = get_responsible_person W' s).
Proof.
  intros s'.
  assert (Hresolve : ∀ V, get_responsible_person V s'
            = covered ← vacation_loop (vacation_weeks s) V s;
              match covered with
              | Some c => Ok (c, special_messages s !! V)
              | None =>
                  match <[W' := p]> (schedule_overrides s) !! V with
                  | Some q => Ok (q, special_messages s !! V)
                  | None => person ← rotation_branch V s; Ok (person, special_messages s !! V)
                  end
              end).
  { intros V. unfold get_responsible_person, s'. simpl.
    by rewrite vacation_loop_other_overrides. }
  repeat apply conj.
  - intros Hne. rewrite Hresolve. by rewrite lookup_insert_ne.
  - intros Hn. rewrite Hresolve. apply vacation_loop_none in Hn. rewrite Hn. rsimpl.
    by rewrite lookup_insert_eq.
  - intros Hyes. rewrite Hresolve. unfold get_responsible_person.
    destruct (vacation_loop_returns W' s (vacation_weeks s)) as [[c|] Hloop];
      rewrite Hloop; [done|].
    destruct Hyes. by apply vacation_loop_none.
Qed.

Lemma override_inserted_witness :
  let s' := with_overrides Fixtures.schedule_with_overrides
              (<["2025-W33" := "JC"]> (schedule_overrides Fixtures.schedule_with_overrides)) in
  get_responsible_person "2025-W36" s'
    = get_responsible_person "2025-W36" Fixtures.schedule_with_overrides ∧
  get_responsible_person "2025-W33" s' = Ok ("JC", None).
Proof.
  intros s'.
  pose proof (override_inserted "2025-W36" "2025-W33" "JC" Fixtures.schedule_with_overrides)
    as (Hother & _ & _).
  pose proof (override_inserted "2025-W33" "2025-W33" "JC" Fixtures.schedule_with_overrides)
    as (_ & Hthis & _).
  split.
  - apply Hother. discriminate.
  - apply Hthis. by_decide.
Defined.

(** * More on the formatter *)

Section LoneBrace.

Context `{Format.Runtime}.

(** A closing brace that is not doubled, or an opening brace at the very
    end, after text without braces, makes [format_message] raise
    [ValueError]: a brace of the message has to be written twice. *)
Theorem lone_brace_raises (pre rest name W : string) (n : Z) :
  Template.brace_free pre = true →
  get_week_number W = Ok n →
  (∀ r, rest ≠ String "}" r) →
  format_message (pre +:+ String "}" rest) name W None = Raise ValueError ∧
  format_message (pre +:+ "{") name W None = Raise ValueError.
Proof.
  intros Hfree Hweek Hrest.
  rewrite !format_message_uses, Hweek. rsimpl. unfold template_used, str_format, Format.format.
  cbn [Format.build_string]. rewrite !render_text by done. split.
  - assert (Hm : Format.markup Format.InText (String "}" rest) = [Format.Malformed]).
    { destruct rest as [|d r]; [done|]. cbn [Format.markup].
      change (Ascii.eqb "}" "{") with false. change (Ascii.eqb "}" "}") with true. cbv iota.
      destruct (Ascii.eqb_spec d "}") as [->|]; [by destruct (Hrest r) | done]. }
    by rewrite Hm.
  - reflexivity.
Qed.

End LoneBrace.

Lemma lone_brace_raises_witness :
  Plain.format_message "Score: 6-4}" "Adrian" "2025-W33" None = Raise ValueError ∧
  Plain.format_message "Score: {" "Adrian" "2025-W33" None = Raise ValueError.
Proof.
  split.
  - apply (proj1 (lone_brace_raises (H := Plain.runtime) "Score: 6-4" "" "Adrian" "2025-W33" 33
                    eq_refl eq_refl ltac:(discriminate))).
  - apply (proj2 (lone_brace_raises (H := Plain.runtime) "Score: " "" "Adrian" "2025-W33" 33
                    eq_refl eq_refl ltac:(discriminate))).
Defined.

(** * The dispatcher's properties *)

Lemma force_week_same_lookup (e e' : gmap string string) :
  e' !! "FORCE_WEEK" = e !! "FORCE_WEEK" →
  Config.get_force_week e' = Config.get_force_week e.
Proof. intros Heq. unfold Config.get_force_week. by rewrite Heq. Qed.

Lemma chosen_week_same_inputs (w w' : Bot.world) (a : Bot.args) config :
  Bot.environ w' !! "FORCE_WEEK" = Bot.environ w !! "FORCE_WEEK" →
  Bot.now_isocalendar w' = Bot.now_isocalendar w →
  Bot.chosen_week w' a config = Bot.chosen_week w a config.
Proof.
  intros Hforce Hnow. unfold Bot.chosen_week, Bot.forced_or_current_week.
  by rewrite (force_week_same_lookup _ _ Hforce), Hnow.
Qed.

Section DispatcherProperties.

Context `{Format.Runtime}.

(** The message [main] would deliver: the test message when it is set and
    not empty, the formatted template otherwise. *)
Lemma main_loaded_dry (w : Bot.world) (a : Bot.args) config s :
  Bot.dry_run a = true →
  Bot.main_loaded w a config s
  = week ← Bot.chosen_week w a config;
    resolved ← get_responsible_person week s;
    message ← (match Config.get_test_message (Bot.environ w) with
               | Some test_message =>
                   if Py.truthy test_message then Ok test_message
                   else template ← dict_getitem config "message_template";
                        format_message template resolved.1 week resolved.2
               | None => template ← dict_getitem config "message_template";
                         format_message template resolved.1 week resolved.2
               end);
    Ok (0, []).
Proof. intros Hdry. unfold Bot.main_loaded. rewrite Hdry. reflexivity. Qed.

Lemma main_loaded_live (w : Bot.world) (a : Bot.args) config s :
  Bot.dry_run a = false →
  Bot.main_loaded w a config s
  = bot_token ← Config.get_bot_token (Bot.environ w);
    chat_id ← Config.get_chat_id (Bot.environ w);
    week ← Bot.chosen_week w a config;
    resolved ← get_responsible_person week s;
    message ← (match Config.get_test_message (Bot.environ w) with
               | Some test_message =>
                   if Py.truthy test_message then Ok test_message
                   else template ← dict_getitem config "message_template";
                        format_message template resolved.1 week resolved.2
               | None => template ← dict_getitem config "message_template";
                         format_message template resolved.1 week resolved.2
               end);
    Ok (if Bot.api_send w chat_id message then 0 else 1, [(chat_id, message)]).
Proof.
  intros Hlive. unfold Bot.main_loaded. rewrite Hlive.
  destruct (Config.get_bot_token _); [|done]. rsimpl.
  destruct (Config.get_chat_id _); [|done]. rsimpl.
  destruct (Bot.chosen_week _ _ _); [|done]. rsimpl.
  destruct (get_responsible_person _ _); [|done]. rsimpl.
  reflexivity.
Qed.

(** In a dry run, asked for by [--dry-run] or by [--test], no call is made
    to the messaging API, and neither the credentials nor the API play any
    part: the outcome is the same in any world with the same files, clock,
    FORCE_WEEK and TEST_MESSAGE. *)
Theorem dry_run_makes_no_call (w w' : Bot.world) (a : Bot.args) :
  Bot.dry_run a = true ∨ Bot.test a = true →
  Bot.files w' = Bot.files w →
  Bot.now_isocalendar w' = Bot.now_isocalendar w →
  Bot.environ w' !! "FORCE_WEEK" = Bot.environ w !! "FORCE_WEEK" →
  Bot.environ w' !! "TEST_MESSAGE" = Bot.environ w !! "TEST_MESSAGE" →
  (Bot.run w a).2 = [] ∧ Bot.run w' a = Bot.run w a.
Proof.
  intros Hdry Hfiles Hnow Hforce Htest.
  assert (Hrun : ∃ a', Bot.dry_run a' = true ∧ Bot.run w a = Bot.main w a' ∧
                       Bot.run w' a = Bot.main w' a').
  { unfold Bot.run. destruct (Bot.test a) eqn:Ht.
    - eexists. split; [|split; reflexivity]. reflexivity.
    - exists a. destruct Hdry as [Hd|Hd]; [done | discriminate]. }
  destruct Hrun as (a' & Hd & -> & ->). unfold Bot.main. rewrite Hfiles.
  destruct (Bot.files w) as [[config s]|]; [|done].
  rewrite !main_loaded_dry by done.
  rewrite (chosen_week_same_inputs w w' a' config Hforce Hnow).
  unfold Config.get_test_message. rewrite Htest.
  destruct (Bot.chosen_week w a' config) as [week|]; [|done]. rsimpl.
  destruct (get_responsible_person week s) as [resolved|]; [|done]. rsimpl.
  by destruct (Bot.environ w !! "TEST_MESSAGE") as [[|]|]; rsimpl;
    try destruct (dict_getitem _ _); rsimpl; try destruct (format_message _ _ _ _).
Qed.

(** Outside a dry run, a bot token or a chat id that is unset or empty
    ends the run with exit code 1 before anything is resolved or sent. *)
Theorem missing_credentials_exit_1 (w : Bot.world) (a : Bot.args) :
  Bot.dry_run a = false →
  Bot.test a = false →
  (∀ t, Bot.environ w !! "TELEGRAM_BOT_TOKEN" = Some t → t = "") ∨
  (∀ c, Bot.environ w !! "TELEGRAM_CHAT_ID" = Some c → c = "") →
  Bot.run w a = (1, []).
Proof.
  intros Hlive Htest Hmissing. unfold Bot.run, Bot.main. rewrite Htest.
  destruct (Bot.files w) as [[config s]|]; [|done].
  rewrite main_loaded_live by done.
  destruct Hmissing as [Htoken|Hchat].
  - unfold Config.get_bot_token.
    destruct (Bot.environ w !! "TELEGRAM_BOT_TOKEN") as [t|]; [|done].
    by rewrite (Htoken t eq_refl).
  - destruct (Config.get_bot_token _); [|done]. rsimpl.
    unfold Config.get_chat_id.
    destruct (Bot.environ w !! "TELEGRAM_CHAT_ID") as [c|]; [|done].
    by rewrite (Hchat c eq_refl).
Qed.

(** The exit code is 0 or 1 and at most one call is made to the messaging
    API, with no second attempt. When a call is made, the run is not a dry
    run, the call goes to the chat id of the environment, and the exit code
    is 0 if the call returns and 1 if it raises. *)
Theorem one_delivery_attempt (w : Bot.world) (a : Bot.args) :
  ((Bot.run w a).1 = 0 ∨ (Bot.run w a).1 = 1) ∧
  ((Bot.run w a).2 = [] ∨
   ∃ chat_id message,
     (Bot.run w a).2 = [(chat_id, message)] ∧
     (Bot.run w a).1 = (if Bot.api_send w chat_id message then 0 else 1) ∧
     Bot.environ w !! "TELEGRAM_CHAT_ID" = Some chat_id ∧
     Bot.dry_run a = false ∧ Bot.test a = false).
Proof.
  unfold Bot.run. destruct (Bot.test a) eqn:Ht.
  - unfold Bot.main. destruct (Bot.files w) as [[config s]|]; [|by split; [right|left]].
    rewrite main_loaded_dry by done.
    destruct (_ ≫= _) as [[code calls]|] eqn:Hbody; [|by split; [right|left]].
    repeat (apply bind_returns in Hbody as (? & _ & Hbody)).
    injection Hbody as <- <-. by split; left.
  - unfold Bot.main. destruct (Bot.files w) as [[config s]|]; [|by split; [right|left]].
    destruct (Bot.dry_run a) eqn:Hd.
    + rewrite main_loaded_dry by done.
      destruct (_ ≫= _) as [[code calls]|] eqn:Hbody; [|by split; [right|left]].
      repeat (apply bind_returns in Hbody as (? & _ & Hbody)).
      injection Hbody as <- <-. by split; left.
    + rewrite main_loaded_live by done.
      destruct (_ ≫= _) as [[code calls]|] eqn:Hbody; [|by split; [right|left]].
      apply bind_returns in Hbody as (token & _ & Hbody).
      apply bind_returns in Hbody as (chat_id & Hchat & Hbody).
      apply bind_returns in Hbody as (week & _ & Hbody).
      apply bind_returns in Hbody as (resolved & _ & Hbody).
      apply bind_returns in Hbody as (message & _ & Hbody).
      injection Hbody as <- <-. simpl. split.
      * destruct (Bot.api_send w chat_id message); [by left | by right].
      * right. exists chat_id, message. repeat split.
        unfold Config.get_chat_id in Hchat.
        destruct (Bot.environ w !! "TELEGRAM_CHAT_ID") as [c|]; [|discriminate].
        destruct (Py.truthy c); [congruence | discriminate].
Qed.

Lemma forced_week_chosen (w : Bot.world) config v n :
  Bot.environ w !! "FORCE_WEEK" = Some v → Py.int v = Ok n →
  Bot.forced_or_current_week w config = Ok (week_string 2025 n).
Proof.
  intros Hv Hn. unfold Bot.forced_or_current_week, Config.get_force_week. rewrite Hv.
  destruct v as [|c v]; [discriminate Hn|]. cbn [Py.truthy]. by rewrite Hn.
Qed.

Lemma unreadable_force_week_current (w : Bot.world) config :
  (∀ v, Bot.environ w !! "FORCE_WEEK" = Some v → raises (Py.int v)) →
  Bot.forced_or_current_week w config
  = timezone ← dict_getitem config "timezone";
    get_current_week_string (Bot.now_isocalendar w) timezone.
Proof.
  intros Hbad. unfold Bot.forced_or_current_week, Config.get_force_week.
  destruct (Bot.environ w !! "FORCE_WEEK") as [v|]; [|done].
  destruct (Py.truthy v); [|done].
  destruct (Hbad v eq_refl) as [e He]. rewrite He.
  by rewrite (int_raises_value_error _ _ He).
Qed.

Lemma checked_format_within_limit (n : Z) :
  - int_limit < n < int_limit → checked_format_02d n = Ok (format_02d n).
Proof.
  intros Hn. unfold checked_format_02d.
  by rewrite (proj2 (Z.ltb_lt (Z.abs n) int_limit)) by lia.
Qed.

Lemma checked_format_beyond_limit (n : Z) :
  n ≤ - int_limit ∨ int_limit ≤ n → checked_format_02d n = Raise ValueError.
Proof.
  intros Hn. unfold checked_format_02d.
  by rewrite (proj2 (Z.ltb_ge (Z.abs n) int_limit)) by lia.
Qed.

Lemma week_choice_precedence_steps (w : Bot.world) (a : Bot.args) config :
  (∀ n, Bot.test_week a = Some n → n ≠ 0 → - int_limit < n < int_limit →
     Bot.chosen_week w a config = Ok (week_string 2025 n)) ∧
  (∀ n, Bot.test_week a = Some n → n ≤ - int_limit ∨ int_limit ≤ n →
     Bot.chosen_week w a config = Raise ValueError) ∧
  (Bot.test_week a = None ∨ Bot.test_week a = Some 0 →
     Bot.chosen_week w a config = Bot.forced_or_current_week w config).
Proof.
  unfold Bot.chosen_week. repeat apply conj.
  - intros n -> Hn Hlimit. rewrite (proj2 (Z.eqb_neq n 0) Hn).
    by rewrite checked_format_within_limit.
  - intros n -> Hlimit.
    assert (Hn : n ≠ 0) by (pose proof int_limit_large; lia).
    rewrite (proj2 (Z.eqb_neq n 0) Hn).
    by rewrite checked_format_beyond_limit.
  - by intros [-> | ->].
Qed.

(** The week that is resolved: a [--test-week] other than zero wins over
    FORCE_WEEK and the clock, and is a week of 2025; an integer too long to
    be written (beyond the digit limit of the integer-to-string conversion)
    makes the choice raise [ValueError]. Without a [--test-week], or with
    zero, an integer FORCE_WEEK wins over the clock, again as a week of
    2025; a FORCE_WEEK that is unset, empty or no integer is passed over in
    silence and the current week, in the time zone of the configuration, is
    used. *)
Theorem week_choice_precedence (w : Bot.world) (a : Bot.args) (config : gmap string string) :
  (∀ n, Bot.test_week a = Some n → n ≠ 0 → - int_limit < n < int_limit →
     Bot.chosen_week w a config = Ok (week_string 2025 n)) ∧
  (∀ n, Bot.test_week a = Some n → n ≤ - int_limit ∨ int_limit ≤ n →
     Bot.chosen_week w a config = Raise ValueError) ∧
  (Bot.test_week a = None ∨ Bot.test_week a = Some 0 →
   ∀ v n, Bot.environ w !! "FORCE_WEEK" = Some v → Py.int v = Ok n →
     Bot.chosen_week w a config = Ok (week_string 2025 n)) ∧
  (Bot.test_week a = None ∨ Bot.test_week a = Some 0 →
   (∀ v, Bot.environ w !! "FORCE_WEEK" = Some v → raises (Py.int v)) →
     Bot.chosen_week w a config
     = timezone ← dict_getitem config "timezone";
       get_current_week_string (Bot.now_isocalendar w) timezone).
Proof.
  destruct (week_choice_precedence_steps w a config) as (Htest & Hlong & Hrest).
  repeat apply conj.
  - exact Htest.
  - exact Hlong.
  - intros Hnone v n Hv Hn. rewrite (Hrest Hnone). by apply (forced_week_chosen w config v n).
  - intros Hnone Hbad. rewrite (Hrest Hnone). by apply unreadable_force_week_current.
Qed.

(** [--test-week 0] is the same as no [--test-week] at all. *)
Theorem test_week_zero_ignored (w : Bot.world) (dry test : bool) :
  Bot.run w {| Bot.dry_run := dry; Bot.test_week := Some 0; Bot.test := test |}
  = Bot.run w {| Bot.dry_run := dry; Bot.test_week := None; Bot.test := test |}.
Proof.
  unfold Bot.run, Bot.main. cbn [Bot.test Bot.test_week Bot.dry_run].
  destruct (Bot.files w) as [[config s]|]; [|by destruct test].
  by destruct test, dry.
Qed.

(** With a non-empty TEST_MESSAGE, outside a dry run and with credentials,
    the text sent is TEST_MESSAGE as it stands: it is not formatted, and the
    template of the configuration is not even looked up. The week is still
    resolved first: if resolving it raises, nothing is sent and the exit
    code is 1. *)
Theorem test_message_sent_as_is
    (w : Bot.world) (a : Bot.args) (config : gmap string string) (s : schedule)
    (token chat_id test_message W : string) :
  Bot.dry_run a = false → Bot.test a = false →
  Bot.files w = Some (config, s) →
  Bot.environ w !! "TELEGRAM_BOT_TOKEN" = Some token → token ≠ "" →
  Bot.environ w !! "TELEGRAM_CHAT_ID" = Some chat_id → chat_id ≠ "" →
  Bot.environ w !! "TEST_MESSAGE" = Some test_message → test_message ≠ "" →
  Bot.chosen_week w a config = Ok W →
  (returns (get_responsible_person W s) →
     Bot.run w a = (if Bot.api_send w chat_id test_message then 0 else 1,
                    [(chat_id, test_message)])) ∧
  (raises (get_responsible_person W s) → Bot.run w a = (1, [])).
Proof.
  intros Hlive Htest Hfiles Htoken Ht Hchat Hc Hmsg Hm Hweek.
  unfold Bot.run, Bot.main. rewrite Htest, Hfiles, main_loaded_live by done.
  unfold Config.get_bot_token, Config.get_chat_id, Config.get_test_message.
  rewrite Htoken, Hchat, Hmsg.
  rewrite !(proj2 (truthy_nonempty _)) by done. rsimpl. rewrite Hweek. rsimpl.
  split.
  - intros [resolved ->]. reflexivity.
  - intros [e ->]. reflexivity.
Qed.

Lemma resolve_returns_when_readable (W : string) (s : schedule) :
  default_rotation s ≠ [] →
  returns (get_total_weeks_since_epoch W) →
  returns (get_total_weeks_since_epoch (start_week s)) →
  ∃ p, get_responsible_person W s = Ok (p, special_messages s !! W).
Proof.
  intros Hne HW Hstart.
  destruct (vacation_loop_returns W s (vacation_weeks s)) as [[c|] Hloop].
  - exists c. by apply resolve_vacation.
  - apply vacation_loop_none in Hloop.
    destruct (schedule_overrides s !! W) as [q|] eqn:Ho.
    + exists q. by apply resolve_override.
    + destruct (proj2 (rotation_branch_returns W s Hne) (conj HW Hstart)) as [p Hp].
      exists p. by rewrite resolve_rotation, Hp.
Qed.

(** End to end, outside a dry run: with credentials, no test message, a
    [--test-week] other than zero, a non-empty rotation, a readable
    [start_week], no special message for the week and a template made of
    text, doubled braces and the two placeholders, exactly one message goes
    to the chat id of the environment: the template filled with the resolved
    person and the test week. The exit code is 0 if the call returns and 1
    if it raises. *)
Theorem test_week_delivers_filled_template
    (w : Bot.world) (a : Bot.args) (config : gmap string string) (s : schedule)
    (token chat_id : string) (n : Z) (ps : list Template.piece) :
  Bot.dry_run a = false → Bot.test a = false →
  Bot.files w = Some (config, s) →
  Bot.environ w !! "TELEGRAM_BOT_TOKEN" = Some token → token ≠ "" →
  Bot.environ w !! "TELEGRAM_CHAT_ID" = Some chat_id → chat_id ≠ "" →
  (∀ m, Bot.environ w !! "TEST_MESSAGE" = Some m → m = "") →
  Bot.test_week a = Some n → n ≠ 0 → - int_limit < n < int_limit →
  default_rotation s ≠ [] →
  returns (get_total_weeks_since_epoch (start_week s)) →
  special_messages s !! week_string 2025 n = None →
  config !! "message_template" = Some (Template.source ps) →
  Template.well_formed ps = true →
  ∃ person,
    fst <$> get_responsible_person (week_string 2025 n) s = Ok person ∧
    Bot.run w a
    = (if Bot.api_send w chat_id (Template.filled person n ps) then 0 else 1,
       [(chat_id, Template.filled person n ps)]).
Proof.
  intros Hlive Htest Hfiles Htoken Ht Hchat Hc Hmsg Hweek Hn Hlimit Hne Hstart
    Hspecial Htemplate Hwf.
  destruct (week_string_readers 2025 n) as [Hnum Htotal]; [below_limit | done |].
  destruct (resolve_returns_when_readable (week_string 2025 n) s Hne) as [person Hres];
    [by eexists | done |].
  exists person. rewrite Hres. split; [done|].
  unfold Bot.run, Bot.main. rewrite Htest, Hfiles, main_loaded_live by done.
  unfold Config.get_bot_token, Config.get_chat_id, Config.get_test_message.
  rewrite Htoken, Hchat.
  rewrite !(proj2 (truthy_nonempty _)) by done. rsimpl.
  rewrite (proj1 (week_choice_precedence_steps w a config) n Hweek Hn Hlimit). rsimpl.
  rewrite Hres. rsimpl. cbn [fst snd]. rewrite Hspecial.
  assert (Hfmt : dict_getitem config "message_template"
                 ≫= (λ template, format_message template person (week_string 2025 n) None)
                 = Ok (Template.filled person n ps)).
  { unfold dict_getitem. rewrite Htemplate. rsimpl.
    rewrite format_message_uses, Hnum. rsimpl.
    unfold template_used, str_format, Format.format. cbn [Format.build_string].
    by apply render_pieces. }
  destruct (Bot.environ w !! "TEST_MESSAGE") as [m|] eqn:Hm.
  - rewrite (Hmsg m eq_refl). cbn [Py.truthy]. by rewrite Hfmt.
  - by rewrite Hfmt.
Qed.

End DispatcherProperties.

Lemma dry_run_makes_no_call_witness :
  (Worlds.run (Worlds.world ∅ true) (Worlds.args true None)).2 = [] ∧
  Worlds.run (Worlds.world Worlds.credentials false) (Worlds.args true None)
  = Worlds.run (Worlds.world ∅ true) (Worlds.args true None).
Proof.
  apply (dry_run_makes_no_call (H := Plain.runtime)).
  - left. reflexivity.
  - reflexivity.
  - reflexivity.
  - reflexivity.
  - reflexivity.
Defined.

Lemma missing_credentials_exit_1_witness :
  Worlds.run (Worlds.world {[ "TELEGRAM_BOT_TOKEN" := "token" ]} true)
    (Worlds.args false None) = (1, []).
Proof.
  apply (missing_credentials_exit_1 (H := Plain.runtime)).
  - reflexivity.
  - reflexivity.
  - right. intros c Hc. vm_compute in Hc. discriminate Hc.
Defined.

Lemma week_choice_precedence_witness :
  Bot.chosen_week (Worlds.world {[ "FORCE_WEEK" := "40" ]} true)
    (Worlds.args true (Some 7)) Worlds.config = Ok "2025-W07" ∧
  Bot.chosen_week (Worlds.world {[ "FORCE_WEEK" := "40" ]} true)
    (Worlds.args true (Some int_limit)) Worlds.config = Raise ValueError ∧
  Bot.chosen_week (Worlds.world {[ "FORCE_WEEK" := "40" ]} true)
    (Worlds.args true (Some 0)) Worlds.config = Ok "2025-W40" ∧
  Bot.chosen_week (Worlds.world {[ "FORCE_WEEK" := "soon" ]} true)
    (Worlds.args true None) Worlds.config = Ok "2025-W34".
Proof.
  repeat apply conj.
  - apply (proj1 (week_choice_precedence (Worlds.world {[ "FORCE_WEEK" := "40" ]} true)
                    (Worlds.args true (Some 7)) Worlds.config) 7).
    + reflexivity.
    + discriminate.
    + below_limit.
  - apply (proj1 (proj2 (week_choice_precedence
                    (Worlds.world {[ "FORCE_WEEK" := "40" ]} true)
                    (Worlds.args true (Some int_limit)) Worlds.config)) int_limit).
    + reflexivity.
    + right. lia.
  - apply (proj1 (proj2 (proj2 (week_choice_precedence
                    (Worlds.world {[ "FORCE_WEEK" := "40" ]} true)
                    (Worlds.args true (Some 0)) Worlds.config)))
             (or_intror eq_refl) "40" 40).
    + reflexivity.
    + reflexivity.
  - rewrite (proj2 (proj2 (proj2 (week_choice_precedence
                    (Worlds.world {[ "FORCE_WEEK" := "soon" ]} true)
                    (Worlds.args true None) Worlds.config))) (or_introl eq_refl)).
    + reflexivity.
    + intros v Hv. vm_compute in Hv. injection Hv as <-. by_run.
Defined.

Lemma test_message_sent_as_is_witness :
  Worlds.run
    (Worlds.world (<["TEST_MESSAGE" := "Court closed {today}"]> Worlds.credentials) true)
    (Worlds.args false None)
  = (0, [("chat", "Court closed {today}")]).
Proof.
  apply (test_message_sent_as_is (H := Plain.runtime)
           (Worlds.world (<["TEST_MESSAGE" := "Court closed {today}"]> Worlds.credentials) true)
           (Worlds.args false None) Worlds.config Fixtures.schedule_with_overrides
           "token" "chat" "Court closed {today}" "2025-W34").
  - reflexivity.
  - reflexivity.
  - reflexivity.
  - vm_compute. reflexivity.
  - discriminate.
  - vm_compute. reflexivity.
  - discriminate.
  - vm_compute. reflexivity.
  - discriminate.
  - vm_compute. reflexivity.
  - by_run.
Defined.

Lemma test_week_delivers_filled_template_witness :
  Worlds.run (Worlds.world Worlds.credentials true) (Worlds.args false (Some 33))
  = (0, [("chat", "Week 33: Adrian")]).
Proof.
  destruct (test_week_delivers_filled_template (H := Plain.runtime)
              (Worlds.world Worlds.credentials true) (Worlds.args false (Some 33))
              Worlds.config Fixtures.schedule_with_overrides "token" "chat" 33
              [Template.Text "Week "; Template.WeekField;
               Template.Text ": "; Template.NameField])
    as (person & Hperson & Hrun).
  - reflexivity.
  - reflexivity.
  - reflexivity.
  - vm_compute. reflexivity.
  - discriminate.
  - vm_compute. reflexivity.
  - discriminate.
  - intros m Hm. vm_compute in Hm. discriminate Hm.
  - reflexivity.
  - discriminate.
  - below_limit.
  - discriminate.
  - by_run.
  - vm_compute. reflexivity.
  - reflexivity.
  - reflexivity.
  - vm_compute in Hperson. injection Hperson as <-.
    unfold Worlds.run. rewrite Hrun. vm_compute. reflexivity.
Defined.
